(** * node-feedly: the authentication life cycle of [lib/feedly.js]

    A shallow embedding of the token handling of the [Feedly] class
    ([lib/feedly.js]) and of the two helpers of [lib/utils.js]
    ([qserver], [qrequest]), followed by the properties of the token
    life cycle that hold (or fail) on that code.

    Conventions of the embedding.
    - JavaScript values are the type [jsval]; numbers are kept at integer
      precision ([Fin z]) together with [NaN]; fractions and infinities
      are not represented.
    - The evaluation of an expression is a [completion]: a value
      ([Normal]) or a thrown value ([Abrupt]).
    - An [async] function is a computation [M A]: it takes the world (the
      instance and its environment) and gives back an outcome together
      with the new world.  The outcome is a value ([Ok]), a thrown value
      or rejected promise ([Throw]), or a promise that never settles
      ([Pending]).
    - The requests that reach the callback listener are handled one
      after the other, each up to the ['finish'] event of its body.
    - What the platform provides ([JSON.parse], [url.format], ...) is the
      interface [Platform]; nothing is assumed about it beyond its type.
    - Every public entry point starts with [await this.ready]; the two
      start-up loads are run by [new_Feedly] right after the constructor,
      so that the operations below start from a world in which [ready]
      has resolved. *)

From stdpp Require Import gmap strings list fin_maps pretty.
From Stdlib Require Import ZArith Lia Ascii.

#[local] Set Warnings "-register-all".
#[local] Open Scope Z_scope.

(** ** JavaScript values *)

Module JS.

Inductive num : Type :=
| NaN
| Fin (z : Z).

Inductive jsval : Type :=
| VUndef
| VNull
| VBool (b : bool)
| VNum (n : num)
| VStr (s : string)
| VDate (t : num)                       (* a Date object and its time value *)
| VArr (l : list jsval)
| VObj (m : gmap string jsval)          (* a plain object: own enumerable properties *)
| VError (name message : string)        (* an Error object *)
| VPromise.                             (* a promise object: no own enumerable property *)

(** How the evaluation of an expression completes: with a value, or
    abruptly with a thrown value. *)
Inductive completion (A : Type) : Type :=
| Normal (a : A)
| Abrupt (e : jsval).

Arguments Normal {A} a.
Arguments Abrupt {A} e.

Definition cbind {A B} (c : completion A) (k : A -> completion B) : completion B :=
  match c with
  | Normal a => k a
  | Abrupt e => Abrupt e
  end.

(** [v == null] *)
Definition nullish (v : jsval) : bool :=
  match v with
  | VUndef | VNull => true
  | _ => false
  end.

(** ToBoolean *)
Definition truthy (v : jsval) : bool :=
  match v with
  | VUndef | VNull => false
  | VBool b => b
  | VNum NaN => false
  | VNum (Fin z) => negb (z =? 0)
  | VStr s => negb (String.eqb s "")
  | _ => true
  end.

Definition num_add (a b : num) : num :=
  match a, b with
  | Fin x, Fin y => Fin (x + y)
  | _, _ => NaN
  end.

Definition num_sub (a b : num) : num :=
  match a, b with
  | Fin x, Fin y => Fin (x - y)
  | _, _ => NaN
  end.

Definition num_mul (a b : num) : num :=
  match a, b with
  | Fin x, Fin y => Fin (x * y)
  | _, _ => NaN
  end.

(** [a > b] on numbers: false as soon as one side is [NaN]. *)
Definition num_gt (a b : num) : bool :=
  match a, b with
  | Fin x, Fin y => y <? x
  | _, _ => false
  end.

(** The largest time value of a Date, in milliseconds. *)
Definition max_time : Z := 8640000000000000.

Definition TimeClip (n : num) : num :=
  match n with
  | Fin z => if Z.abs z <=? max_time then Fin z else NaN
  | NaN => NaN
  end.

Definition TypeError (msg : string) : jsval := VError "TypeError" msg.

(** [o.k] for the property names the program reads ([access_token],
    [refresh_token], [expires], [expires_in], [error], [code],
    [_request]): none of
    them is a member of a built-in prototype, so only a plain object can
    hold one. *)
Definition get_prop (o : jsval) (k : string) : completion jsval :=
  match o with
  | VUndef => Abrupt (TypeError ("Cannot read property '" +:+ k +:+ "' of undefined"))
  | VNull => Abrupt (TypeError ("Cannot read property '" +:+ k +:+ "' of null"))
  | VObj m => Normal (default VUndef (m !! k))
  | _ => Normal VUndef
  end.

(** [o.k = v] in strict mode, giving the object after the assignment.
    The program assigns only to objects that are plain. *)
Definition set_prop (o : jsval) (k : string) (v : jsval) : completion jsval :=
  match o with
  | VUndef => Abrupt (TypeError ("Cannot set property '" +:+ k +:+ "' of undefined"))
  | VNull => Abrupt (TypeError ("Cannot set property '" +:+ k +:+ "' of null"))
  | VObj m => Normal (VObj (<[k := v]> m))
  | _ => Abrupt (TypeError ("Cannot create property '" +:+ k +:+ "'"))
  end.

(** [delete o.k] for the property names the program deletes, giving the
    object after the deletion. *)
Definition delete_prop (o : jsval) (k : string) : completion jsval :=
  match o with
  | VUndef | VNull => Abrupt (TypeError "Cannot convert undefined or null to object")
  | VObj m => Normal (VObj (delete k m))
  | _ => Normal o
  end.

Definition indexed (l : list jsval) : gmap string jsval :=
  list_to_map (imap (fun (i : nat) v => (pretty i, v)) l).

Definition chars (s : string) : list jsval :=
  (fun c => VStr (String c EmptyString)) <$> String.list_ascii_of_string s.

(** The own enumerable properties that [Object.assign] copies from a source. *)
Definition own_props (v : jsval) : gmap string jsval :=
  match v with
  | VObj m => m
  | VArr l => indexed l
  | VStr s => indexed (chars s)
  | _ => ∅
  end.

(** [Object.assign({}, s1, ..., sn)]: later sources win. *)
Definition Object_assign (sources : list jsval) : jsval :=
  VObj (foldl (fun acc s => own_props s ∪ acc) ∅ sources).

(** What the program takes from the JavaScript platform and from Node's
    [url] module and the [untildify] package. *)
Class Platform : Type := {
  (** [JSON.parse]; [None] is a SyntaxError *)
  JSON_parse : string -> option jsval;
  (** [JSON.stringify], as the string that is written or interpolated *)
  JSON_stringify : jsval -> string;
  (** ToNumber on a string *)
  StringToNumber : string -> num;
  (** [Date.parse] *)
  Date_parse : string -> num;
  (** ToPrimitive on an object that is not a Date *)
  ToPrimitive : jsval -> completion jsval;
  (** ToString, as used by a template literal *)
  ToString : jsval -> string;
  (** [url.parse(s, true)]: path name and parsed query *)
  url_parse : string -> option string * jsval;
  (** [url.format] of [url.parse(base)] after its [pathname] and [query]
      have been assigned *)
  url_format : string -> string -> option (list (string * jsval)) -> string;
  (** the [untildify] package, applied to a string or to [null] *)
  untildify : option string -> completion (option string);
  (** [path.join(__dirname, '../html/index.html')] *)
  default_html_file : string;
}.

Section Conversions.
Context `{Platform}.

Definition ToNumber_prim (v : jsval) : num :=
  match v with
  | VNull => Fin 0
  | VBool b => Fin (if b then 1 else 0)
  | VNum n => n
  | VStr s => StringToNumber s
  | _ => NaN
  end.

Definition ToNumber (v : jsval) : completion num :=
  match v with
  | VDate t => Normal t
  | VArr _ | VObj _ | VError _ _ | VPromise =>
      cbind (ToPrimitive v) (fun p => Normal (ToNumber_prim p))
  | _ => Normal (ToNumber_prim v)
  end.

Definition date_value (p : jsval) : num :=
  match p with
  | VStr s => Date_parse s
  | _ => TimeClip (ToNumber_prim p)
  end.

(** [new Date(v)] *)
Definition new_Date (v : jsval) : completion jsval :=
  match v with
  | VDate t => Normal (VDate t)
  | VArr _ | VObj _ | VError _ _ | VPromise =>
      cbind (ToPrimitive v) (fun p => Normal (VDate (date_value p)))
  | _ => Normal (VDate (date_value v))
  end.
End Conversions.

End JS.

Import JS.

(** ** The instance and its environment *)

(** [this.options] after the constructor. *)
Record Options : Type := {
  port : Z;
  base : string;
  config_file : option string;            (* [None] is [null] *)
  refresh_token : jsval;
  access_token : jsval;
  access_token_expires : jsval;
  html_file : option string;              (* [None] is [null] *)
  html_text : string;
  slop : num;
  client_id : string;
  client_secret : string;
}.

(** The options object handed to the [request] package. *)
Record request : Type := {
  method : string;
  uri : string;
  headers : list (string * string);
  body : jsval;
}.

(** What [request] hands to its callback: an error, or a response with
    its status code and its body (parsed, as [json] is set). *)
Inductive response : Type :=
| NetError (message : string)
| Reply (statusCode : Z) (payload : jsval).

(** A request that reaches the local callback listener. *)
Record http_request : Type := {
  verb : string;
  url : string;
  content : string;
}.

Inductive http_response : Type :=
| Response (status : Z) (head : list (string * string)) (text : string)
| Refused.

(** What a free identifier of the module can be bound to on the global
    object: the instance itself, or some other value. *)
Inductive binding : Type :=
| BThis
| BValue (v : jsval).

Record world : Type := {
  (** the instance *)
  options : Options;
  state : jsval;
  (** the file system: contents by path, and the paths that can be
      neither read nor written *)
  files : gmap string string;
  locked : gset string;
  (** the clock: the n-th evaluation of [new Date()] reads [clock n] *)
  clock : nat -> Z;
  ticks : nat;
  (** the API provider, which sees the earlier requests, and the log of
      the requests issued so far *)
  provider : list request -> request -> response;
  requests : list request;
  (** binding the callback listener: the bound port, or a failure *)
  listen : Z -> option Z;
  (** the requests that will reach the callback listener, in order, and
      what has been answered so far *)
  browser : list http_request;
  served : list http_response;
  (** the URLs handed to the [opn] package *)
  opened : list string;
  (** what went to [console.error] *)
  console : list (string * jsval);
  (** the properties of the global object *)
  globals : gmap string binding;
}.

Definition set_options (o : Options) (w : world) : world :=
  {| options := o; state := state w; files := files w; locked := locked w;
     clock := clock w; ticks := ticks w; provider := provider w;
     requests := requests w; listen := listen w; browser := browser w;
     served := served w; opened := opened w; console := console w;
     globals := globals w |}.

Definition set_state (s : jsval) (w : world) : world :=
  {| options := options w; state := s; files := files w; locked := locked w;
     clock := clock w; ticks := ticks w; provider := provider w;
     requests := requests w; listen := listen w; browser := browser w;
     served := served w; opened := opened w; console := console w;
     globals := globals w |}.

Definition set_files (f : gmap string string) (w : world) : world :=
  {| options := options w; state := state w; files := f; locked := locked w;
     clock := clock w; ticks := ticks w; provider := provider w;
     requests := requests w; listen := listen w; browser := browser w;
     served := served w; opened := opened w; console := console w;
     globals := globals w |}.

Definition set_ticks (n : nat) (w : world) : world :=
  {| options := options w; state := state w; files := files w; locked := locked w;
     clock := clock w; ticks := n; provider := provider w;
     requests := requests w; listen := listen w; browser := browser w;
     served := served w; opened := opened w; console := console w;
     globals := globals w |}.

Definition set_requests (l : list request) (w : world) : world :=
  {| options := options w; state := state w; files := files w; locked := locked w;
     clock := clock w; ticks := ticks w; provider := provider w;
     requests := l; listen := listen w; browser := browser w;
     served := served w; opened := opened w; console := console w;
     globals := globals w |}.

Definition set_browser (l : list http_request) (w : world) : world :=
  {| options := options w; state := state w; files := files w; locked := locked w;
     clock := clock w; ticks := ticks w; provider := provider w;
     requests := requests w; listen := listen w; browser := l;
     served := served w; opened := opened w; console := console w;
     globals := globals w |}.

Definition set_served (l : list http_response) (w : world) : world :=
  {| options := options w; state := state w; files := files w; locked := locked w;
     clock := clock w; ticks := ticks w; provider := provider w;
     requests := requests w; listen := listen w; browser := browser w;
     served := l; opened := opened w; console := console w;
     globals := globals w |}.

Definition set_opened (l : list string) (w : world) : world :=
  {| options := options w; state := state w; files := files w; locked := locked w;
     clock := clock w; ticks := ticks w; provider := provider w;
     requests := requests w; listen := listen w; browser := browser w;
     served := served w; opened := l; console := console w;
     globals := globals w |}.

Definition set_console (l : list (string * jsval)) (w : world) : world :=
  {| options := options w; state := state w; files := files w; locked := locked w;
     clock := clock w; ticks := ticks w; provider := provider w;
     requests := requests w; listen := listen w; browser := browser w;
     served := served w; opened := opened w; console := l;
     globals := globals w |}.

(** ** Asynchronous computations *)

(** How a promise ends: fulfilled, rejected, or never settled. *)
Inductive outcome (A : Type) : Type :=
| Ok (a : A)
| Throw (e : jsval)
| Pending.

Arguments Ok {A} a.
Arguments Throw {A} e.
Arguments Pending {A}.

Definition M (A : Type) : Type := world -> outcome A * world.

Definition ret {A} (a : A) : M A := fun w => (Ok a, w).

Definition throw {A} (e : jsval) : M A := fun w => (Throw e, w).

Definition lift {A} (c : completion A) : M A :=
  fun w =>
    match c with
    | Normal a => (Ok a, w)
    | Abrupt e => (Throw e, w)
    end.

Definition bind {A B} (m : M A) (k : A -> M B) : M B :=
  fun w =>
    match m w with
    | (Ok a, w') => k a w'
    | (Throw e, w') => (Throw e, w')
    | (Pending, w') => (Pending, w')
    end.

(** [try { m } catch (er) { h er }] *)
Definition try_catch {A} (m : M A) (h : jsval -> M A) : M A :=
  fun w =>
    match m w with
    | (Throw e, w') => h e w'
    | r => r
    end.

(** [p.then(f, g)] *)
Definition then_ {A B} (p : M A) (f : A -> M B) (g : jsval -> M B) : M B :=
  fun w =>
    match p w with
    | (Ok a, w') => f a w'
    | (Throw e, w') => g e w'
    | (Pending, w') => (Pending, w')
    end.

(** A call to an [async] function whose promise is not awaited: the
    call has its effects, the caller goes on with the promise object. *)
Definition unawaited {A} (p : M A) : M jsval :=
  fun w => (Ok VPromise, snd (p w)).

Declare Scope async_scope.
Delimit Scope async_scope with async.
Notation "'let!' x ':=' m 'in' k" := (bind m (fun x => k))
  (at level 10, x name, m at level 100, k at level 200) : async_scope.
Notation "'do!' m 'in' k" := (bind m (fun _ => k))
  (at level 10, m at level 100, k at level 200) : async_scope.
#[local] Open Scope async_scope.

Definition get_state : M jsval := fun w => (Ok (state w), w).
Definition put_state (s : jsval) : M unit := fun w => (Ok tt, set_state s w).
Definition get_options : M Options := fun w => (Ok (options w), w).

(** A node-style callback [(er, result) => ...], as a function of its
    two arguments. *)
Definition callback : Type := jsval -> jsval -> completion jsval.

(** *** Primitive effects *)

Definition Error (msg : string) : jsval := VError "Error" msg.

(** [util.promisify(fs.readFile)] *)
Definition readFile (p : string) : M string :=
  fun w =>
    if decide (p ∈ locked w) then (Throw (Error ("EACCES: " +:+ p)), w)
    else match files w !! p with
         | Some d => (Ok d, w)
         | None => (Throw (Error ("ENOENT: " +:+ p)), w)
         end.

(** [util.promisify(fs.writeFile)]: the file is overwritten as a whole. *)
Definition writeFile (p : string) (d : string) : M unit :=
  fun w =>
    if decide (p ∈ locked w) then (Throw (Error ("EACCES: " +:+ p)), w)
    else (Ok tt, set_files (<[p := d]> (files w)) w).

(** [new Date()], as its time value *)
Definition Date_now : M Z :=
  fun w => (Ok (clock w (ticks w)), set_ticks (S (ticks w)) w).

(** The [request] package: the request is logged, the provider answers. *)
Definition request_ (o : request) : M response :=
  fun w => (Ok (provider w (requests w) o), set_requests (requests w ++ [o]) w).

(** The [opn] package *)
Definition open (u : string) : M unit :=
  fun w => (Ok tt, set_opened (opened w ++ [u]) w).

Definition console_error (label : string) (v : jsval) : M unit :=
  fun w => (Ok tt, set_console (console w ++ [(label, v)]) w).

(** ** [lib/utils.js] *)

Module Utils.
Section Utils.
Context `{Platform}.

(** The one-shot callback listener of [qserver]: whether it still
    accepts connections, the promise it settles (the first resolution
    wins), how often [resolve] was called, and what it answered. *)
Record server : Type := {
  listening : bool;
  settled : option (jsval * string);
  resolutions : nat;
  answers : list http_response;
}.

(** The server once [server.listen] has succeeded. *)
Definition createServer : server :=
  {| listening := true; settled := None; resolutions := 0; answers := [] |}.

(** [resolve(r)] on a promise: a settled promise stays as it is. *)
Definition resolve {A} (r : A) (slot : option A) : option A :=
  match slot with
  | None => Some r
  | Some _ => slot
  end.

(** The request listener handed to [http.createServer], run up to the
    ['finish'] event of the piped request body. *)
Definition handler (text : string) (req : http_request) (s : server) : server :=
  let u := url_parse (url req) in
  if bool_decide (fst u = Some "/") then
    {| listening := false;
       settled := resolve (snd u, content req) (settled s);
       resolutions := S (resolutions s);
       answers := answers s ++ [Response 200 [("Content-Type", "text/html")] text] |}
  else
    {| listening := listening s;
       settled := settled s;
       resolutions := resolutions s;
       answers := answers s ++ [Response 404 [] ""] |}.

(** One incoming connection: handled while the server listens, refused
    once it is closed. *)
Definition connection (text : string) (s : server) (req : http_request) : server :=
  if listening s then handler text req s
  else {| listening := false; settled := settled s;
          resolutions := resolutions s; answers := answers s ++ [Refused] |}.

Definition serve (text : string) (reqs : list http_request) (s : server) : server :=
  foldl (connection text) s reqs.

Definition callback_url (p : Z) : string := "http://localhost:" +:+ pretty p.

(** [qserver(port, text, opener)].  When the port cannot be bound the
    ['error'] listener closes the server and the promise is never
    settled; so it is when no request for [/] arrives. *)
Definition qserver (port : Z) (text : string) (opener : string -> M unit)
  : M (jsval * string) :=
  fun w =>
    match listen w port with
    | None => (Pending, w)
    | Some p =>
        let w1 := snd (opener (callback_url p) w) in
        let s := serve text (browser w1) createServer in
        let w2 := set_browser [] (set_served (served w1 ++ answers s) w1) in
        match settled s with
        | Some r => (Ok r, w2)
        | None => (Pending, w2)
        end
    end.

Definition nl : string := String "010"%char "".

(** [qrequest(options)], with [options.callback] as [cb]. *)
Definition qrequest (o : request) (cb : option callback) : M jsval :=
  let prom :=
    let! res := request_ o in
    match res with
    | NetError msg => throw (Error msg)
    | Reply code b =>
        if code =? 200 then ret b
        else throw (Error ("HTTP error: " +:+ pretty code +:+ nl +:+
                           "From: " +:+ uri o +:+ nl +:+ JSON_stringify b))
    end in
  match cb with
  | Some f => then_ prom (fun r => lift (f VNull r)) (fun e => lift (f e VUndef))
  | None => prom
  end.

End Utils.
End Utils.

(** ** [lib/feedly.js] *)

Module Feedly.
Import Utils.

(** The options object given to [new Feedly(options)]: [None] is a key
    that is not given. *)
Record arguments : Type := {
  o_port : option Z;
  o_base : option string;
  o_config_file : option (option string);
  o_refresh_token : option jsval;
  o_access_token : option jsval;
  o_access_token_expires : option jsval;
  o_html_file : option (option string);
  o_html_text : option string;
  o_slop : option num;
  o_client_id : option string;
  o_client_secret : option string;
}.

Definition set_html_text (t : string) (o : Options) : Options :=
  {| port := port o; base := base o; config_file := config_file o;
     refresh_token := refresh_token o; access_token := access_token o;
     access_token_expires := access_token_expires o;
     html_file := html_file o; html_text := t; slop := slop o;
     client_id := client_id o; client_secret := client_secret o |}.

(** The identifiers declared at the top of [lib/feedly.js], and those of
    the module wrapper. *)
Definition module_scope : list string :=
  ["fs"; "path"; "url"; "util"; "readFile"; "writeFile"; "open"; "untildify";
   "utils"; "_normalizeTag"; "_nodify"; "_pickCB"; "_streamOptions"; "Feedly";
   "exports"; "require"; "module"; "__filename"; "__dirname"].

Definition ReferenceError (x : string) : jsval :=
  VError "ReferenceError" (x +:+ " is not defined").

(** The value of an identifier that no enclosing scope declares: a
    property of the global object, or a ReferenceError. *)
Definition global_identifier (x : string) : M binding :=
  fun w =>
    match globals w !! x with
    | Some b => (Ok b, w)
    | None => (Throw (ReferenceError x), w)
    end.

(** [_nodify(cb, f)] *)
Definition _nodify (cb : option callback) (f : M jsval) : M jsval :=
  match cb with
  | Some c => then_ f (fun r => lift (c VNull r)) (fun e => lift (c e VUndef))
  | None => f
  end.

Section Feedly.
Context `{Platform}.

(** The constructor up to [this.ready]: the options and the state. *)
Definition constructor (a : arguments) : completion (Options * jsval) :=
  cbind (untildify (default (Some "~/.feedly") (o_config_file a))) (fun cf =>
  cbind (untildify (default (Some default_html_file) (o_html_file a))) (fun hf =>
  match o_client_id a, o_client_secret a with
  | Some id, Some secret =>
      let o :=
        {| port := default 0 (o_port a);
           base := default "http://cloud.feedly.com" (o_base a);
           config_file := cf;
           refresh_token := default VUndef (o_refresh_token a);
           access_token := default VUndef (o_access_token a);
           access_token_expires := default (VNum (Fin 0)) (o_access_token_expires a);
           html_file := hf;
           html_text := default "No HTML found" (o_html_text a);
           slop := default (Fin 3600000) (o_slop a);
           client_id := id;
           client_secret := secret |} in
      if truthy (refresh_token o) && truthy (access_token o)
         && truthy (access_token_expires o)
      then Normal (o, VObj (<["refresh_token" := refresh_token o]>
                            (<["access_token" := access_token o]>
                             (<["expires" := access_token_expires o]> ∅))))
      else Normal (o, VObj ∅)
  | _, _ => Abrupt (Error "client_id and client_secret required")
  end)).

Definition _loadConfig : M unit :=
  let! o := get_options in
  match config_file o with
  | None => ret tt
  | Some p =>
      try_catch
        (let! data := readFile p in
         let! parsed := lift (match JSON_parse data with
                              | Some v => Normal v
                              | None => Abrupt (VError "SyntaxError" "Unexpected token")
                              end) in
         do! put_state parsed in
         let! st := get_state in
         let! ex := lift (get_prop st "expires") in
         if nullish ex then ret tt
         else
           let! d := lift (new_Date ex) in
           let! st' := lift (set_prop st "expires" d) in
           put_state st')
        (fun er => put_state (VObj ∅))
  end.

Definition _loadHTML : M unit :=
  let! o := get_options in
  match html_file o with
  | Some p =>
      try_catch
        (let! t := readFile p in
         fun w => (Ok tt, set_options (set_html_text t (options w)) w))
        (fun er => console_error "WARNING:" er)
  | None => ret tt
  end.

(** [new Feedly(options)] followed by [await this.ready], where
    [ready = Promise.all([this._loadConfig(), this._loadHTML()])]. *)
Definition new_Feedly (a : arguments) : M unit :=
  match constructor a with
  | Normal (o, st) =>
      fun w => (do! _loadConfig in _loadHTML) (set_state st (set_options o w))
  | Abrupt e => throw e
  end.

Definition _save : M unit :=
  let! o := get_options in
  match config_file o with
  | Some p =>
      let! st := get_state in
      writeFile p (JSON_stringify st)
  | None => ret tt
  end.

Definition _validToken : M bool :=
  let! st := get_state in
  let! a := lift (get_prop st "access_token") in
  if nullish a then ret false else
  let! r := lift (get_prop st "refresh_token") in
  if nullish r then ret false else
  let! e := lift (get_prop st "expires") in
  if nullish e then ret false else
  let! now := Date_now in
  let! n := lift (ToNumber e) in
  ret (num_gt n (Fin now)).

Definition _getToken_request (o : Options) (code redirect : jsval) : request :=
  {| method := "POST";
     uri := url_format (base o) "/v3/auth/token" None;
     headers := [];
     body := VObj (<["code" := code]>
                   (<["client_id" := VStr (client_id o)]>
                    (<["client_secret" := VStr (client_secret o)]>
                     (<["grant_type" := VStr "authorization_code"]>
                      (<["redirect_uri" := redirect]> ∅))))) |}.

Definition _getToken (code redirect : jsval) : M jsval :=
  let! o := get_options in
  let! b := qrequest (_getToken_request o code redirect) None in
  let! st := get_state in
  do! put_state (Object_assign [st; b]) in
  let! st1 := get_state in
  let! now := Date_now in
  let! ein := lift (get_prop b "expires_in") in
  let! n := lift (ToNumber ein) in
  let! st2 := lift (set_prop st1 "expires"
                      (VDate (TimeClip (num_add (Fin now) (num_mul n (Fin 1000)))))) in
  do! put_state st2 in
  do! _save in
  let! st3 := get_state in
  lift (get_prop st3 "access_token").

Definition _refresh_request (o : Options) (token : jsval) : request :=
  {| method := "POST";
     uri := url_format (base o) "/v3/auth/token"
              (Some [("refresh_token", token);
                     ("client_id", VStr (client_id o));
                     ("client_secret", VStr (client_secret o));
                     ("grant_type", VStr "refresh_token")]);
     headers := [];
     body := VUndef |}.

Definition _refresh : M jsval :=
  let! o := get_options in
  let! st0 := get_state in
  let! token := lift (get_prop st0 "refresh_token") in
  let! b := qrequest (_refresh_request o token) None in
  let! st := get_state in
  do! put_state (Object_assign [st; b]) in
  let! st1 := get_state in
  let! now := Date_now in
  let! ein := lift (get_prop b "expires_in") in
  let! n := lift (ToNumber ein) in
  let! st2 := lift (set_prop st1 "expires"
                      (VDate (TimeClip (num_add (Fin now) (num_mul n (Fin 1000)))))) in
  do! put_state st2 in
  do! _save in
  let! st3 := get_state in
  lift (get_prop st3 "access_token").

Definition _auth_url (o : Options) (cbu : string) : string :=
  url_format (base o) "/v3/auth/auth"
    (Some [("response_type", VStr "code");
           ("client_id", VStr (client_id o));
           ("redirect_uri", VStr cbu);
           ("scope", VStr "https://cloud.feedly.com/subscriptions")]).

(** [cbURL] is the local variable that the opener assigns: when
    [qserver] resolves, the listener was bound and the opener has run. *)
Definition _auth : M jsval :=
  let! o := get_options in
  fun w =>
    let cbURL := match listen w (port o) with
                 | Some p => VStr (callback_url p)
                 | None => VNull
                 end in
    (let! r := qserver (port o) (html_text o) (fun cbu => open (_auth_url o cbu)) in
     let results := fst r in
     let! er := lift (get_prop results "error") in
     if nullish er then
       let! code := lift (get_prop results "code") in
       _getToken code cbURL
     else throw er) w.

Definition _getAuth : M jsval :=
  let! v := _validToken in
  if negb v then _auth
  else
    let! o := get_options in
    let! st := get_state in
    let! e := lift (get_prop st "expires") in
    let! now := Date_now in
    let! n := lift (ToNumber e) in
    if num_gt (num_sub n (Fin now)) (slop o) then _refresh
    else
      let! st' := get_state in
      lift (get_prop st' "access_token").

(** [this._request(callback, path, method, body)] *)
Definition _request (cb : option callback) (path : string)
    (method : option string) (body : jsval) : M jsval :=
  let method := default "GET" method in
  let! o := get_options in
  let! auth := _getAuth in
  qrequest {| method := method;
              uri := url_format (base o) path None;
              headers := [("Authorization", "OAuth " +:+ ToString auth)];
              body := body |} cb.

Definition _revoke_request (o : Options) (token : jsval) : request :=
  {| method := "POST";
     uri := url_format (base o) "/v3/auth/token"
              (Some [("refresh_token", token);
                     ("client_id", VStr (client_id o));
                     ("client_secret", VStr (client_secret o));
                     ("grant_type", VStr "revoke_token")]);
     headers := [];
     body := VUndef |}.

(** [delete this.state.k] *)
Definition delete_state (k : string) : M unit :=
  let! st := get_state in
  let! st' := lift (delete_prop st k) in
  put_state st'.

(** [logout(cb)].  The promise of [utils.qrequest] is not awaited:
    [body] is that promise. *)
Definition logout (cb : option callback) : M jsval :=
  _nodify cb
    (let! o := get_options in
     let! st0 := get_state in
     let! token := lift (get_prop st0 "refresh_token") in
     let! body := unawaited (qrequest (_revoke_request o token) None) in
     do! delete_state "access_token" in
     do! delete_state "expires" in
     do! delete_state "plan" in
     do! delete_state "provider" in
     do! delete_state "refresh_token" in
     do! delete_state "token_type" in
     let! st := get_state in
     do! put_state (Object_assign [st; body]) in
     do! _save in
     ret VUndef).

(** [f._request(...)], for what the free identifier [f] is bound to. *)
Definition call_request (f : binding) (cb : option callback) (path : string)
    (method : option string) (body : jsval) : M jsval :=
  match f with
  | BThis => _request cb path method body
  | BValue v =>
      let! m := lift (get_prop v "_request") in
      throw (TypeError "f._request is not a function")
  end.

Definition markers_body (ids : jsval) (action : string) : jsval :=
  VObj (<["entryIds" := ids]>
        (<["type" := VStr "entries"]>
         (<["action" := VStr action]> ∅))).

(** [if (typeof ids === 'string') { ids = [ids] }] *)
Definition as_array (ids : jsval) : jsval :=
  match ids with
  | VStr s => VArr [VStr s]
  | _ => ids
  end.

(** [markEntrySaved(ids, cb)]: its body calls [f._request], and [f] is
    declared neither by the method nor by the module. *)
Definition markEntrySaved (ids : jsval) (cb : option callback) : M jsval :=
  let ids := as_array ids in
  let! f := global_identifier "f" in
  call_request f cb "/v3/markers" (Some "POST") (markers_body ids "markAsSaved").

Definition markEntryUnsaved (ids : jsval) (cb : option callback) : M jsval :=
  let ids := as_array ids in
  let! f := global_identifier "f" in
  call_request f cb "/v3/markers" (Some "POST") (markers_body ids "markAsUnsaved").

End Feedly.
End Feedly.

(** ** A small platform and some worlds, to run the code on *)

Module Demo.
Import Utils Feedly.

Definition dq : string := String (ascii_of_nat 34) "".

(** The text [{"access_token":"A","refresh_token":"R","expires":5000000}] *)
Definition tokens_text : string :=
  "{" +:+ dq +:+ "access_token" +:+ dq +:+ ":" +:+ dq +:+ "A" +:+ dq +:+ ","
      +:+ dq +:+ "refresh_token" +:+ dq +:+ ":" +:+ dq +:+ "R" +:+ dq +:+ ","
      +:+ dq +:+ "expires" +:+ dq +:+ ":5000000}".

Definition tokens : gmap string jsval :=
  <["access_token" := VStr "A"]>
  (<["refresh_token" := VStr "R"]>
   (<["expires" := VNum (Fin 5000000)]> ∅)).

(** A parser that knows three texts. *)
Definition parse (s : string) : option jsval :=
  if bool_decide (s = tokens_text) then Some (VObj tokens)
  else if bool_decide (s = "{}") then Some (VObj ∅)
  else if bool_decide (s = "null") then Some VNull
  else None.

(** A printer that shows the property names of an object. *)
Definition stringify (v : jsval) : string :=
  match v with
  | VObj m => "{" +:+ String.concat "," (fst <$> map_to_list m) +:+ "}"
  | VStr s => s
  | _ => "null"
  end.

(** A URL parser that knows two queries. *)
Definition parse_url (s : string) : option string * jsval :=
  if bool_decide (s = "/?code=abc123") then
    (Some "/", VObj (<["code" := VStr "abc123"]> ∅))
  else if bool_decide (s = "/?error=access_denied") then
    (Some "/", VObj (<["error" := VStr "access_denied"]> ∅))
  else (Some s, VObj ∅).

Definition format_url (base path : string) (q : option (list (string * jsval)))
  : string :=
  match q with
  | Some l => base +:+ path +:+ "?" +:+ String.concat "&" (fst <$> l)
  | None => base +:+ path
  end.

(** The [untildify] package for the home directory [/home/u]: a string
    that starts with a tilde standing alone or before a slash or a
    backslash (the character 92) has the tilde replaced; anything that
    is not a string is a TypeError. *)
Definition expand_tilde (o : option string) : completion (option string) :=
  match o with
  | Some (String "~" rest as s) =>
      match rest with
      | EmptyString | String "/" _ | String "092" _ =>
          Normal (Some ("/home/u" +:+ rest))
      | _ => Normal (Some s)
      end
  | Some s => Normal (Some s)
  | None => Abrupt (TypeError "Expected a string, got object")
  end.

Definition platform : Platform := {|
  JSON_parse := parse;
  JSON_stringify := stringify;
  StringToNumber := fun _ => NaN;
  Date_parse := fun _ => NaN;
  ToPrimitive := fun _ => Normal (VStr "[object Object]");
  ToString := fun v => match v with VStr s => s | _ => "undefined" end;
  url_parse := parse_url;
  url_format := format_url;
  untildify := expand_tilde;
  default_html_file := "/lib/../html/index.html";
|}.

Definition some_options : Options :=
  {| port := 8080; base := "http://sandbox.feedly.com";
     config_file := Some "/home/u/.feedly";
     refresh_token := VUndef; access_token := VUndef;
     access_token_expires := VNum (Fin 0);
     html_file := None; html_text := "No HTML found"; slop := Fin 3600000;
     client_id := "sandbox"; client_secret := "secret" |}.

(** A world at time [now] holding the credentials [st], with no token
    file, a provider that answers every request with [r], and a browser
    that sends [hits] to the callback listener. *)
Definition a_world (now : Z) (st : jsval) (r : response) (hits : list http_request)
  : world :=
  {| options := some_options; state := st;
     files := ∅; locked := ∅;
     clock := fun _ => now; ticks := 0;
     provider := fun _ _ => r; requests := [];
     listen := fun p => Some p;
     browser := hits; served := [];
     opened := []; console := [];
     globals := ∅ |}.

(** Credentials with an access token, a refresh token and an expiry. *)
Definition credentials (expires : Z) : jsval :=
  VObj (<["access_token" := VStr "A"]>
        (<["refresh_token" := VStr "R"]>
         (<["expires" := VDate (Fin expires)]>
          (<["id" := VStr "u1"]> ∅)))).

Definition get (u : string) : http_request :=
  {| verb := "GET"; url := u; content := "" |}.

(** The world [w] with another file system. *)
Definition with_files (f : gmap string string) (l : gset string) (w : world)
  : world :=
  {| options := options w; state := state w; files := f; locked := l;
     clock := clock w; ticks := ticks w; provider := provider w;
     requests := requests w; listen := listen w; browser := browser w;
     served := served w; opened := opened w; console := console w;
     globals := globals w |}.

(** The arguments of [new Feedly]: the client id and secret, and the
    three tokens when [given]; the token file is the default one. *)
Definition args (given : bool) : arguments :=
  {| o_port := Some 8080; o_base := None; o_config_file := None;
     o_refresh_token := if given then Some (VStr "R") else None;
     o_access_token := if given then Some (VStr "A") else None;
     o_access_token_expires := if given then Some (VNum (Fin 9000000)) else None;
     o_html_file := None; o_html_text := None; o_slop := None;
     o_client_id := Some "sandbox"; o_client_secret := Some "secret" |}.

End Demo.

Import Utils Feedly.

(** * Notions used in the statements *)

Section Notions.
Context `{Platform}.

Definition not_found : http_response := Response 404 [] "".

Definition page (text : string) : http_response :=
  Response 200 [("Content-Type", "text/html")] text.

(** The request asks for the path [/]. *)
Definition root_request (r : http_request) : Prop :=
  fst (url_parse (url r)) = Some "/".

(** The value of [this.state.k] when [this.state] is neither [null]
    nor [undefined]. *)
Definition field (st : jsval) (k : string) : jsval :=
  match st with
  | VObj m => default VUndef (m !! k)
  | _ => VUndef
  end.

(** The time that the next [new Date()] reads. *)
Definition now (w : world) : Z := clock w (ticks w).

(** The world once [new Date()] has been evaluated. *)
Definition tick (w : world) : world := set_ticks (S (ticks w)) w.

(** One of the three credentials is missing, or the expiry is not after
    the current time. *)
Definition no_valid_token (w : world) : Prop :=
  nullish (field (state w) "access_token") = true
  \/ nullish (field (state w) "refresh_token") = true
  \/ nullish (field (state w) "expires") = true
  \/ exists t, ToNumber (field (state w) "expires") = Normal (Fin t) /\ t <= now w.

(** The two token exchanges. *)
Inductive exchange : Type :=
| AuthorizationCode (code redirect : jsval)
| RefreshToken.

Definition token_exchange (x : exchange) : M jsval :=
  match x with
  | AuthorizationCode code redirect => _getToken code redirect
  | RefreshToken => _refresh
  end.

(** The request that an exchange sends to the token endpoint. *)
Definition exchange_request (x : exchange) (w : world) : completion request :=
  match x with
  | AuthorizationCode code redirect =>
      Normal (_getToken_request (options w) code redirect)
  | RefreshToken =>
      cbind (get_prop (state w) "refresh_token")
            (fun token => Normal (_refresh_request (options w) token))
  end.

(** The transport failed, or the status is not a 2xx one. *)
Definition exchange_fails (r : response) : Prop :=
  match r with
  | NetError _ => True
  | Reply code _ => code < 200 \/ 300 <= code
  end.

(** The world after the request [req] has been issued. *)
Definition logged (req : request) (w : world) : world :=
  set_requests (requests w ++ [req]) w.

(** The token file can be written (or persistence is switched off). *)
Definition writable (w : world) : Prop :=
  forall p, config_file (options w) = Some p -> p ∉ locked w.

(** The files once [st] has been saved. *)
Definition saved (st : jsval) (w : world) : gmap string string :=
  match config_file (options w) with
  | Some p => <[p := JSON_stringify st]> (files w)
  | None => files w
  end.

(** The credentials after an exchange that returned the fields [b],
    among them [expires_in = n]. *)
Definition granted (w : world) (b : gmap string jsval) (n : Z) : jsval :=
  VObj (<["expires" := VDate (Fin (now w + n * 1000))]> (b ∪ own_props (state w))).

(** The token file is absent or cannot be read. *)
Definition unreadable (w : world) (p : string) : Prop :=
  p ∈ locked w \/ files w !! p = None.

(** The token file is read and [JSON.parse] gives [r] ([None]: it is
    malformed). *)
Definition parses_to (w : world) (p : string) (r : option jsval) : Prop :=
  exists d, (p ∉ locked w) /\ files w !! p = Some d /\ JSON_parse d = r.

End Notions.

(** * More of [lib/feedly.js] *)

Module Api.
Section Api.
Context `{Platform}.

(** An argument of a public method: a value, or a function. *)
Inductive arg : Type :=
| Val (v : jsval)
| Fn (f : callback).

(** [typeof cb === 'function'], as [utils.qrequest] tests its callback. *)
Definition as_callback (a : arg) : option callback :=
  match a with
  | Fn f => Some f
  | Val _ => None
  end.

(** [_pickCB(...args)]: the first function among the arguments (or
    [null]) and the arguments before it, [args.slice(0, i)]; these are
    not functions, and are kept as values. *)
Fixpoint _pickCB (args : list arg) : arg * list jsval :=
  match args with
  | [] => (Val VNull, [])
  | Fn f :: _ => (Fn f, [])
  | Val v :: rest => let '(cb, vs) := _pickCB rest in (cb, v :: vs)
  end.

(** The i-th variable of a destructuring assignment. *)
Definition el (vs : list jsval) (i : nat) : jsval := default VUndef (vs !! i).

(** [v.getTime()] *)
Definition getTime (v : jsval) : completion jsval :=
  match v with
  | VDate t => Normal (VNum t)
  | VUndef | VNull => Abrupt (TypeError "Cannot read property 'getTime' of undefined")
  | _ => Abrupt (TypeError "getTime is not a function")
  end.

(** [counts(autorefresh, newerThan, streamId, cb)] *)
Definition counts (autorefresh newerThan streamId cb : arg) : M jsval :=
  let '(cb, vs) := _pickCB [autorefresh; newerThan; streamId; cb] in
  let autorefresh := el vs 0 in
  let newerThan := el vs 1 in
  let streamId := el vs 2 in
  let input : gmap string jsval := ∅ in
  let input := if nullish autorefresh then input
               else <["autorefresh" := autorefresh]> input in
  let! input := if nullish newerThan then ret input
                else let! t := lift (getTime newerThan) in
                     ret (<["newerThan" := t]> input) in
  let input := if nullish streamId then input
               else <["streamId" := streamId]> input in
  let body := if decide (size input = 0%nat) then VNull else VObj input in
  _request (as_callback cb) "/v3/markers/counts" (Some "GET") body.

(** [v instanceof Date ? v.getTime() : v] *)
Definition date_to_time (v : jsval) : jsval :=
  match v with
  | VDate t => VNum t
  | _ => v
  end.

(** [_streamOptions(opts, cb)]: the options and the callback.  The
    source rewrites the Date properties of [opts] in place; the object
    returned is that same object. *)
Definition _streamOptions (opts cb : arg) : completion (jsval * arg) :=
  match opts with
  | Fn f => Normal (VNull, Fn f)
  | Val (VStr s) => Normal (VObj (<["continuation" := VStr s]> ∅), cb)
  | Val VUndef | Val VNull => Normal (VNull, cb)
  | Val (VBool _) | Val (VNum _) => Abrupt (TypeError "Unknown options type")
  | Val (VObj m) => Normal (VObj (date_to_time <$> m), cb)
  | Val (VArr l) => Normal (VArr (date_to_time <$> l), cb)
  | Val v => Normal (v, cb)
  end.

(** [str.match(/^user\//)] is not [null] *)
Fixpoint starts_with (p s : string) : bool :=
  match p, s with
  | EmptyString, _ => true
  | String a p', String b s' => if Ascii.eqb a b then starts_with p' s' else false
  | String _ _, EmptyString => false
  end.

(** The function mapped by [_normalizeCategories]. *)
Definition normalize_category (userid : jsval) (cat : jsval) : completion jsval :=
  match cat with
  | VStr s =>
      Normal (VStr (if starts_with "user/" s then s
                    else "user/" +:+ ToString userid +:+ "/category/" +:+ s))
  | VUndef | VNull => Abrupt (TypeError "Cannot read property 'match' of undefined")
  | _ => Abrupt (TypeError "cat.match is not a function")
  end.

(** [l.map(f)], for an [f] that may throw *)
Fixpoint map_values (f : jsval -> completion jsval) (l : list jsval)
  : completion (list jsval) :=
  match l with
  | [] => Normal []
  | x :: rest =>
      cbind (f x) (fun y =>
      cbind (map_values f rest) (fun ys => Normal (y :: ys)))
  end.

(** [this._normalizeCategories(ary)] *)
Definition _normalizeCategories (ary : jsval) : M jsval :=
  let! st := get_state in
  let! userid := lift (get_prop st "id") in
  match ary with
  | VArr l =>
      lift (cbind (map_values (normalize_category userid) l)
                  (fun l' => Normal (VArr l')))
  | VUndef | VNull => throw (TypeError "Cannot read property 'map' of undefined")
  | _ => throw (TypeError "ary.map is not a function")
  end.

(** [refresh(cb)] *)
Definition refresh (cb : option callback) : M jsval :=
  _nodify cb
    (let! v := _validToken in
     if v then _refresh else _auth).

End Api.
End Api.

Import Api.

(** * More notions *)

Section More_notions.
Context `{Platform}.

(** A computation that leaves the files alone while no token file is
    configured. *)
Definition quiet {A} (m : M A) : Prop :=
  forall w,
    config_file (options w) = None ->
    config_file (options (snd (m w))) = None /\ files (snd (m w)) = files w.

(** A computation that keeps the credentials a value of which
    properties can be read. *)
Definition keeps_object {A} (m : M A) : Prop :=
  forall w, nullish (state w) = false -> nullish (state (snd (m w))) = false.

(** The properties that [logout] deletes. *)
Definition logout_fields : list string :=
  ["access_token"; "expires"; "plan"; "provider"; "refresh_token"; "token_type"].

(** How a promise ends when a callback has run. *)
Definition called (c : completion jsval) : outcome jsval :=
  match c with
  | Normal v => Ok v
  | Abrupt e => Throw e
  end.

(** The credentials hold the three tokens and expire at [t], after the
    current time. *)
Definition valid_until (w : world) (t : Z) : Prop :=
  nullish (state w) = false
  /\ nullish (field (state w) "access_token") = false
  /\ nullish (field (state w) "refresh_token") = false
  /\ nullish (field (state w) "expires") = false
  /\ ToNumber (field (state w) "expires") = Normal (Fin t)
  /\ now w < t.

(** What [_getToken] and [_refresh] do with the body of the response. *)
Definition store_token (b : jsval) : M jsval :=
  let! st := get_state in
  do! put_state (Object_assign [st; b]) in
  let! st1 := get_state in
  let! now := Date_now in
  let! ein := lift (get_prop b "expires_in") in
  let! n := lift (ToNumber ein) in
  let! st2 := lift (set_prop st1 "expires"
                      (VDate (TimeClip (num_add (Fin now) (num_mul n (Fin 1000)))))) in
  do! put_state st2 in
  do! _save in
  let! st3 := get_state in
  lift (get_prop st3 "access_token").

(** The world after a token exchange that sent [req] and stored the
    credentials [st]. *)
Definition exchanged (req : request) (st : jsval) (w : world) : world :=
  set_files (saved st w) (set_state st (tick (logged req w))).

(** A computation that sends no request and opens no browser. *)
Definition silent {A} (m : M A) : Prop :=
  forall w, requests (snd (m w)) = requests w /\ opened (snd (m w)) = opened w.

(** The request that exchanges the authorization [code] brought to the
    listener on port [p]. *)
Definition code_request (w : world) (p : Z) (code : jsval) : request :=
  _getToken_request (options w) code (VStr (callback_url p)).

(** How a full authorization on a listener bound to port [p] shows from
    outside, however it ends: the browser was sent, once, to the
    authorization URL that redirects to the listener; the provider was
    sent nothing or the exchange of one authorization code and nothing
    else; and a token comes back only when that exchange was sent. *)
Definition authorizes (w : world) (p : Z) (r : outcome jsval * world) : Prop :=
  opened (snd r) = opened w ++ [_auth_url (options w) (callback_url p)]
  /\ (requests (snd r) = requests w
      \/ exists code, requests (snd r) = requests w ++ [code_request w p code])
  /\ (forall v, fst r = Ok v ->
      exists code, requests (snd r) = requests w ++ [code_request w p code]).

(** The browser comes back to the listener on port [p] with [code] and
    no error, and the provider answers the exchange of that code with
    status 200 and the object [b]. *)
Definition code_granted (w : world) (p : Z) (code : jsval) (b : gmap string jsval)
  : Prop :=
  listen w (port (options w)) = Some p
  /\ (exists pre r post er,
        browser w = pre ++ r :: post
        /\ Forall (fun q => ¬ root_request q) pre
        /\ root_request r
        /\ get_prop (snd (url_parse (url r))) "error" = Normal er
        /\ nullish er = true
        /\ get_prop (snd (url_parse (url r))) "code" = Normal code)
  /\ provider w (requests w) (code_request w p code) = Reply 200 (VObj b).

(** A full authorization that went through on the listener of port [p]:
    the token of the response comes back, the credentials hold the
    merged response [b] stamped with the expiry [n] seconds after the
    clock reading of [w1], they are saved, the browser was sent to the
    authorization URL and the provider the exchange of [code]. *)
Definition authorized (w w1 : world) (p : Z) (code : jsval)
    (b : gmap string jsval) (n : Z) (r : outcome jsval * world) : Prop :=
  fst r = Ok (field (granted w1 b n) "access_token")
  /\ state (snd r) = granted w1 b n
  /\ files (snd r) = saved (granted w1 b n) w
  /\ opened (snd r) = opened w ++ [_auth_url (options w) (callback_url p)]
  /\ requests (snd r) = requests w ++ [code_request w p code].

End More_notions.

(** ** More sample data *)

Module Samples.

(** The properties of [Demo.credentials]. *)
Definition credentials_map (expires : Z) : gmap string jsval :=
  <["access_token" := VStr "A"]>
  (<["refresh_token" := VStr "R"]>
   (<["expires" := VDate (Fin expires)]>
    (<["id" := VStr "u1"]> ∅))).

(** A platform whose JSON knows the credentials that expire at
    9 001 000: they are written as the text [saved], which is read back
    with the expiry as the string [iso], and [Date.parse] knows [iso]. *)
Definition json_platform : Platform := {|
  JSON_parse := fun s =>
    if bool_decide (s = "saved")
    then Some (VObj (<["expires" := VStr "iso"]> (credentials_map 9001000)))
    else None;
  JSON_stringify := fun _ => "saved";
  StringToNumber := fun _ => NaN;
  Date_parse := fun s => if bool_decide (s = "iso") then Fin 9001000 else NaN;
  ToPrimitive := fun _ => Normal (VStr "[object Object]");
  ToString := fun v => match v with VStr s => s | _ => "undefined" end;
  url_parse := Demo.parse_url;
  url_format := Demo.format_url;
  untildify := Demo.expand_tilde;
  default_html_file := "/lib/../html/index.html";
|}.

(** [Demo.some_options] without a token file. *)
Definition no_file_options : Options :=
  {| port := 8080; base := "http://sandbox.feedly.com";
     config_file := None;
     refresh_token := VUndef; access_token := VUndef;
     access_token_expires := VNum (Fin 0);
     html_file := Some "/lib/../html/index.html";
     html_text := "No HTML found"; slop := Fin 3600000;
     client_id := "sandbox"; client_secret := "secret" |}.

(** The token response [{access_token: "new", expires_in: 3600}]. *)
Definition fresh : gmap string jsval :=
  <["access_token" := VStr "new"]> (<["expires_in" := VNum (Fin 3600)]> ∅).

(** A callback that hands back its result, or [false] on an error. *)
Definition report : callback :=
  fun er r => Normal (if nullish er then r else VBool false).

End Samples.

(** * Properties *)

(** ** The callback listener *)

Section Listener.
Context `{Platform}.

Lemma serve_cons text q l s :
  serve text (q :: l) s = serve text l (connection text s q).
Proof. reflexivity. Qed.

Lemma serve_app text l1 l2 s :
  serve text (l1 ++ l2) s = serve text l2 (serve text l1 s).
Proof. apply foldl_app. Qed.

Lemma serve_closed text l s :
  listening s = false ->
  serve text l s =
    {| listening := false; settled := settled s; resolutions := resolutions s;
       answers := answers s ++ ((fun _ => Refused) <$> l) |}.
Proof.
  revert s. induction l as [|q l IH]; intros s Hs.
  - simpl. rewrite app_nil_r. destruct s; simpl in *. by subst.
  - rewrite serve_cons, IH; unfold connection; rewrite Hs; [|done].
    simpl. by rewrite <- app_assoc.
Qed.

Lemma serve_stray text l s :
  listening s = true ->
  Forall (fun q => ¬ root_request q) l ->
  serve text l s =
    {| listening := true; settled := settled s; resolutions := resolutions s;
       answers := answers s ++ ((fun _ => not_found) <$> l) |}.
Proof.
  revert s. induction l as [|q l IH]; intros s Hs Hl.
  - simpl. rewrite app_nil_r. destruct s; simpl in *. by subst.
  - inversion Hl as [|? ? Hq Hl']; subst.
    assert (Hc : connection text s q =
      {| listening := true; settled := settled s; resolutions := resolutions s;
         answers := answers s ++ [not_found] |}).
    { unfold connection, handler. rewrite Hs.
      by rewrite bool_decide_eq_false_2 by exact Hq. }
    rewrite serve_cons, IH; [|by rewrite Hc|done].
    rewrite Hc. simpl. by rewrite <- app_assoc.
Qed.

Lemma serve_root text pre r post :
  Forall (fun q => ¬ root_request q) pre ->
  root_request r ->
  serve text (pre ++ r :: post) createServer =
    {| listening := false;
       settled := Some (snd (url_parse (url r)), content r);
       resolutions := 1;
       answers := ((fun _ => not_found) <$> pre) ++ page text
                    :: ((fun _ => Refused) <$> post) |}.
Proof.
  intros Hpre Hr.
  rewrite serve_app, (serve_stray text pre createServer eq_refl Hpre), serve_cons.
  rewrite serve_closed.
  - unfold connection, handler. simpl.
    rewrite bool_decide_eq_true_2 by exact Hr. simpl.
    by rewrite <- app_assoc.
  - unfold connection, handler. simpl.
    by rewrite bool_decide_eq_true_2 by exact Hr.
Qed.

(** What [qserver] does when the listener is bound to [p] and the
    first request for [/] is [r]. *)
Lemma qserver_resolves port text opener w p pre r post :
  listen w port = Some p ->
  browser (snd (opener (callback_url p) w)) = pre ++ r :: post ->
  Forall (fun q => ¬ root_request q) pre ->
  root_request r ->
  qserver port text opener w =
    (Ok (snd (url_parse (url r)), content r),
     let w1 := snd (opener (callback_url p) w) in
     set_browser []
       (set_served (served w1 ++ ((fun _ => not_found) <$> pre) ++ page text
                      :: ((fun _ => Refused) <$> post)) w1)).
Proof.
  intros Hl Hb Hpre Hr. unfold qserver. rewrite Hl. simpl.
  rewrite Hb, (serve_root text pre r post Hpre Hr). reflexivity.
Qed.

(** [C4] The callback listener started by the authorization.  Requests
    for another path than [/] are answered 404, leave the promise
    unsettled and the listener open.  The first request for [/] resolves
    the promise, once, with its parsed query, is answered with the
    configured page, and closes the listener: every later connection is
    refused.  [qserver] then resolves with that query. *)
Theorem qserver_one_shot port text opener w p pre r post :
  listen w port = Some p ->
  browser (snd (opener (callback_url p) w)) = pre ++ r :: post ->
  Forall (fun q => ¬ root_request q) pre ->
  root_request r ->
  let before := serve text pre createServer in
  let after := serve text (pre ++ r :: post) createServer in
  (settled before = None /\ listening before = true
   /\ answers before = (fun _ => not_found) <$> pre)
  /\ (settled after = Some (snd (url_parse (url r)), content r)
      /\ resolutions after = 1%nat
      /\ listening after = false
      /\ answers after = ((fun _ => not_found) <$> pre) ++ page text
                           :: ((fun _ => Refused) <$> post))
  /\ fst (qserver port text opener w) = Ok (snd (url_parse (url r)), content r).
Proof.
  intros Hl Hb Hpre Hr before after. subst before after.
  rewrite (serve_stray text pre createServer eq_refl Hpre).
  rewrite (serve_root text pre r post Hpre Hr).
  rewrite (qserver_resolves port text opener w p pre r post Hl Hb Hpre Hr).
  simpl. repeat split.
Qed.

End Listener.

Section Listener_example.
#[local] Existing Instance Demo.platform.

(** The listener on the hits [/favicon.ico], [/?code=abc123], [/]. *)
Lemma qserver_one_shot_witness :
  let w := Demo.a_world 0 (VObj ∅) (NetError "offline")
             [Demo.get "/favicon.ico"; Demo.get "/?code=abc123"; Demo.get "/"] in
  answers (serve "hello" (browser w) createServer)
    = [not_found; page "hello"; Refused]
  /\ fst (qserver 8080 "hello" (fun _ => ret tt) w)
     = Ok (VObj (<["code" := VStr "abc123"]> ∅), "").
Proof.
  pose proof (qserver_one_shot 8080 "hello" (fun _ => ret tt)
      (Demo.a_world 0 (VObj ∅) (NetError "offline")
         [Demo.get "/favicon.ico"; Demo.get "/?code=abc123"; Demo.get "/"])
      8080 [Demo.get "/favicon.ico"] (Demo.get "/?code=abc123") [Demo.get "/"]
      eq_refl eq_refl) as Hq.
  assert (Hpre : Forall (fun q => ¬ root_request q) [Demo.get "/favicon.ico"]).
  { constructor; [|constructor]. vm_compute. discriminate. }
  specialize (Hq Hpre eq_refl). simpl in Hq.
  destruct Hq as (_ & (_ & _ & _ & Ha) & Hr).
  split; [exact Ha | exact Hr].
Defined.

End Listener_example.

(** ** Which way [_getAuth] goes *)

Section Classification.
Context `{Platform}.

Lemma get_prop_field st k :
  nullish st = false -> get_prop st k = Normal (field st k).
Proof. by destruct st. Qed.

Lemma validToken_rejects w :
  nullish (state w) = false ->
  no_valid_token w ->
  exists w', _validToken w = (Ok false, w') /\ (w' = w \/ w' = tick w).
Proof.
  intros Hst Hno. unfold _validToken, bind, get_state, lift.
  rewrite !get_prop_field by done.
  destruct (nullish (field (state w) "access_token")) eqn:Ha; [by eauto|].
  destruct (nullish (field (state w) "refresh_token")) eqn:Hr; [by eauto|].
  destruct (nullish (field (state w) "expires")) eqn:He; [by eauto|].
  destruct Hno as [?|[?|[?|(t & Ht & Hle)]]]; [congruence..|].
  unfold Date_now. rewrite Ht. unfold ret. simpl.
  exists (tick w). split; [|by right].
  unfold tick, now in *. do 2 f_equal. apply Z.ltb_ge. lia.
Qed.

(** What [_getAuth] does in general with a token that is still good
    but within the slop of its expiry: the stored token comes back and
    nothing is sent; the clock has been read twice. *)
Lemma getAuth_within_slop w t s :
  nullish (state w) = false ->
  nullish (field (state w) "access_token") = false ->
  nullish (field (state w) "refresh_token") = false ->
  nullish (field (state w) "expires") = false ->
  ToNumber (field (state w) "expires") = Normal (Fin t) ->
  slop (options w) = Fin s ->
  now w < t ->
  t - now (tick w) <= s ->
  _getAuth w = (Ok (field (state w) "access_token"), tick (tick w)).
Proof.
  intros Hst Ha Hr He Ht Hs Hvalid Hsoon.
  unfold _getAuth. unfold bind at 1.
  unfold _validToken, bind, get_state, get_options, lift, Date_now, ret.
  unfold now, tick in Hvalid, Hsoon. simpl in Hsoon.
  rewrite !get_prop_field by done. rewrite Ha, Hr, He, Ht.
  simpl. rewrite (proj2 (Z.ltb_lt _ _) Hvalid). simpl.
  rewrite !get_prop_field by done. rewrite Ht, Hs. simpl.
  rewrite (proj2 (Z.ltb_ge _ _) Hsoon). simpl state.
  by rewrite get_prop_field by done.
Qed.

(** [C1] The code at two inputs, with the default slop of 3 600 000 ms
    and the clock at 1 000 000.
    - The token expires 1 000 ms from now, within the slop: [_getAuth]
      returns the stored token ["A"] and sends nothing; no refresh.
    - The token expires 8 001 000 ms from now, beyond the slop:
      [_getAuth] sends the refresh request and returns the token of the
      response, not the stored one.
    The comparison [(expires - now) > slop] selects the refresh for the
    tokens that are far from their expiry. *)
Theorem getAuth_refreshes_beyond_slop :
  let fresh := VObj (<["access_token" := VStr "new"]>
                     (<["expires_in" := VNum (Fin 3600)]> ∅)) in
  let soon := Demo.a_world 1000000 (Demo.credentials 1001000) (Reply 200 fresh) [] in
  let far := Demo.a_world 1000000 (Demo.credentials 9001000) (Reply 200 fresh) [] in
  (fst (_getAuth soon) = Ok (VStr "A")
   /\ requests (snd (_getAuth soon)) = [])
  /\ (fst (_getAuth far) = Ok (VStr "new")
      /\ requests (snd (_getAuth far))
         = [_refresh_request Demo.some_options (VStr "R")]).
Proof. vm_compute. repeat split. Qed.

End Classification.

(** ** The token exchanges *)

Section Exchange.
Context `{Platform}.

Lemma exchange_request_refresh w req :
  exchange_request RefreshToken w = Normal req ->
  exists token, get_prop (state w) "refresh_token" = Normal token
                /\ req = _refresh_request (options w) token.
Proof.
  unfold exchange_request, cbind.
  destruct (get_prop (state w) "refresh_token") as [token|]; [|done].
  intros [= <-]. by exists token.
Qed.

(** A request that fails makes [qrequest] reject, after it was logged. *)
Lemma qrequest_rejects w req :
  exchange_fails (provider w (requests w) req) ->
  exists e, qrequest req None w = (Throw e, logged req w).
Proof.
  intros Hf. unfold qrequest, bind, request_. simpl.
  destruct (provider w (requests w) req) as [msg|code b]; simpl in *.
  - by eexists.
  - destruct (code =? 200) eqn:Hc; [apply Z.eqb_eq in Hc; lia|]. by eexists.
Qed.

(** A request answered with 200 makes [qrequest] resolve with the body. *)
Lemma qrequest_resolves w req b :
  provider w (requests w) req = Reply 200 b ->
  qrequest req None w = (Ok b, logged req w).
Proof.
  intros Hp. unfold qrequest, bind, request_. simpl. by rewrite Hp.
Qed.

(** [C3] A token exchange, with an authorization code or with the
    refresh token, whose request meets a transport failure or a status
    outside 2xx: the operation rejects with an error, and all that
    changed is the log of the requests sent; the credentials held in
    memory and the files are what they were. *)
Theorem failed_exchange_changes_nothing x w req :
  exchange_request x w = Normal req ->
  exchange_fails (provider w (requests w) req) ->
  exists e, token_exchange x w = (Throw e, logged req w)
            /\ state (logged req w) = state w
            /\ files (logged req w) = files w.
Proof.
  intros Hreq Hf. destruct x as [code redirect|]; simpl in *.
  - injection Hreq as <-.
    destruct (qrequest_rejects w _ Hf) as (e & He).
    exists e. split; [|done].
    unfold _getToken, bind, get_options. by rewrite He.
  - destruct (exchange_request_refresh w req Hreq) as (token & Ht & ->).
    destruct (qrequest_rejects w _ Hf) as (e & He).
    exists e. split; [|done].
    unfold _refresh, bind, get_options, get_state, lift. rewrite Ht.
    by rewrite He.
Qed.

Lemma Object_assign_pair st b :
  Object_assign [st; VObj b] = VObj (b ∪ own_props st).
Proof.
  unfold Object_assign. simpl. by rewrite (right_id_L ∅ (∪)).
Qed.

(** Saving succeeds when the token file can be written. *)
Lemma save_writes w :
  writable w ->
  _save w = (Ok tt, set_files (saved (state w) w) w).
Proof.
  intros Hw. unfold _save, saved, bind, get_options, get_state, writeFile, ret.
  destruct (config_file (options w)) as [p|] eqn:Hp.
  - rewrite decide_False by by apply Hw. done.
  - by destruct w.
Qed.

(** What follows the response in [_getToken] and in [_refresh]. *)
Lemma token_stored w0 w b n :
  state w = state w0 -> options w = options w0 -> files w = files w0 ->
  locked w = locked w0 -> now w = now w0 ->
  b !! "expires_in" = Some (VNum (Fin n)) ->
  Z.abs (now w0 + n * 1000) <= max_time ->
  writable w0 ->
  exists w',
    (let! st := get_state in
     do! put_state (Object_assign [st; VObj b]) in
     let! st1 := get_state in
     let! now := Date_now in
     let! ein := lift (get_prop (VObj b) "expires_in") in
     let! n := lift (ToNumber ein) in
     let! st2 := lift (set_prop st1 "expires"
                         (VDate (TimeClip (num_add (Fin now) (num_mul n (Fin 1000)))))) in
     do! put_state st2 in
     do! _save in
     let! st3 := get_state in
     lift (get_prop st3 "access_token")) w
    = (Ok (field (granted w0 b n) "access_token"), w')
    /\ state w' = granted w0 b n
    /\ files w' = saved (granted w0 b n) w0
    /\ requests w' = requests w
    /\ options w' = options w.
Proof.
  intros Hst Ho Hf Hl Hn Hb Hrange Hw.
  unfold bind at 1. unfold get_state at 1.
  unfold bind at 1. unfold put_state at 1. rewrite Object_assign_pair.
  unfold bind at 1. unfold get_state at 1. simpl state.
  unfold bind at 1. unfold Date_now at 1.
  unfold bind at 1. unfold lift at 1. simpl get_prop. rewrite Hb. simpl default.
  unfold bind at 1. unfold lift at 1. simpl ToNumber.
  unfold bind at 1. unfold lift at 1. simpl set_prop.
  simpl num_add. fold (now w) in *.
  change (clock (set_state (VObj (b ∪ own_props (state w))) w)
            (ticks (set_state (VObj (b ∪ own_props (state w))) w))) with (now w).
  rewrite Hn, (proj2 (Z.leb_le _ _) Hrange), Hst. fold (granted w0 b n).
  unfold bind at 1. unfold put_state at 1.
  unfold bind at 1. rewrite save_writes.
  - unfold bind, get_state, lift. simpl.
    eexists. split; [reflexivity|]. simpl.
    repeat split. unfold saved. simpl. by rewrite Ho, Hf.
  - intros p. simpl. rewrite Ho, Hl. apply Hw.
Qed.

(** The same steps when the token file cannot be written: the merged
    credentials stay in memory, the write fails and the failure is what
    the exchange ends with. *)
Lemma token_not_saved w0 w b n p :
  state w = state w0 -> options w = options w0 -> files w = files w0 ->
  locked w = locked w0 -> now w = now w0 ->
  b !! "expires_in" = Some (VNum (Fin n)) ->
  Z.abs (now w0 + n * 1000) <= max_time ->
  config_file (options w0) = Some p ->
  p ∈ locked w0 ->
  exists e w',
    (let! st := get_state in
     do! put_state (Object_assign [st; VObj b]) in
     let! st1 := get_state in
     let! now := Date_now in
     let! ein := lift (get_prop (VObj b) "expires_in") in
     let! n := lift (ToNumber ein) in
     let! st2 := lift (set_prop st1 "expires"
                         (VDate (TimeClip (num_add (Fin now) (num_mul n (Fin 1000)))))) in
     do! put_state st2 in
     do! _save in
     let! st3 := get_state in
     lift (get_prop st3 "access_token")) w
    = (Throw e, w')
    /\ state w' = granted w0 b n
    /\ files w' = files w0.
Proof.
  intros Hst Ho Hf Hl Hn Hb Hrange Hp Hlocked.
  unfold bind at 1. unfold get_state at 1.
  unfold bind at 1. unfold put_state at 1. rewrite Object_assign_pair.
  unfold bind at 1. unfold get_state at 1. simpl state.
  unfold bind at 1. unfold Date_now at 1.
  unfold bind at 1. unfold lift at 1. simpl get_prop. rewrite Hb. simpl default.
  unfold bind at 1. unfold lift at 1. simpl ToNumber.
  unfold bind at 1. unfold lift at 1. simpl set_prop.
  simpl num_add. fold (now w) in *.
  change (clock (set_state (VObj (b ∪ own_props (state w))) w)
            (ticks (set_state (VObj (b ∪ own_props (state w))) w))) with (now w).
  rewrite Hn, (proj2 (Z.leb_le _ _) Hrange), Hst. fold (granted w0 b n).
  unfold bind at 1. unfold put_state at 1.
  unfold bind at 1. unfold _save, bind, get_options, get_state, writeFile.
  simpl. rewrite Ho, Hp. simpl. rewrite Hl, decide_True by done.
  do 2 eexists. split; [reflexivity|]. by simpl.
Qed.

(** A successful exchange whose result cannot be saved rejects, with
    the new credentials in memory and the files as they were. *)
Lemma unsaved_exchange_rejects x w req b n p :
  exchange_request x w = Normal req ->
  provider w (requests w) req = Reply 200 (VObj b) ->
  b !! "expires_in" = Some (VNum (Fin n)) ->
  Z.abs (now w + n * 1000) <= max_time ->
  config_file (options w) = Some p ->
  p ∈ locked w ->
  exists e w', token_exchange x w = (Throw e, w')
               /\ state w' = granted w b n
               /\ files w' = files w.
Proof.
  intros Hreq Hp Hb Hrange Hcf Hlocked.
  assert (Hq : qrequest req None w = (Ok (VObj b), logged req w))
    by by apply qrequest_resolves.
  destruct (token_not_saved w (logged req w) b n p) as (e & w' & Hrun & Hs & Hf);
    try done.
  exists e, w'. split; [|done].
  destruct x as [code redirect|]; simpl token_exchange.
  - simpl in Hreq. injection Hreq as <-.
    unfold _getToken. unfold bind at 1. unfold get_options at 1.
    unfold bind at 1. rewrite Hq. exact Hrun.
  - destruct (exchange_request_refresh w req Hreq) as (token & Ht & ->).
    unfold _refresh. unfold bind at 1. unfold get_options at 1.
    unfold bind at 1. unfold get_state at 1.
    unfold bind at 1. unfold lift at 1. rewrite Ht.
    unfold bind at 1. rewrite Hq. exact Hrun.
Qed.

(** [C6] A token exchange, with an authorization code or with the
    refresh token, that the provider answers with status 200 and an
    object [b] holding [expires_in = n]: the fields of [b] are merged
    over the credentials, [expires] becomes the time [now + n * 1000]
    (milliseconds), the result is saved to the token file when one is
    configured, and the access token of the result is returned; that is
    the token of [b] when [b] has one.  The refresh token held before
    stays unless [b] brings another.  The expiry is taken to be a time
    that a Date can hold, and the token file to be writable. *)
Theorem successful_exchange_stores_token x w req b n :
  exchange_request x w = Normal req ->
  provider w (requests w) req = Reply 200 (VObj b) ->
  b !! "expires_in" = Some (VNum (Fin n)) ->
  Z.abs (now w + n * 1000) <= max_time ->
  writable w ->
  let st' := granted w b n in
  exists w',
    token_exchange x w = (Ok (field st' "access_token"), w')
    /\ state w' = st'
    /\ files w' = saved st' w
    /\ requests w' = requests w ++ [req]
    /\ (forall k v, b !! k = Some v -> k ≠ "expires" -> field st' k = v)
    /\ own_props st' !! "refresh_token"
       = match b !! "refresh_token" with
         | Some r => Some r
         | None => own_props (state w) !! "refresh_token"
         end.
Proof.
  intros Hreq Hp Hb Hrange Hw st'.
  assert (Hq : qrequest req None w = (Ok (VObj b), logged req w))
    by by apply qrequest_resolves.
  destruct (token_stored w (logged req w) b n) as (w' & Hrun & Hs & Hf & Hr & Ho);
    try done.
  exists w'. split; [|split; [done|split; [done|split; [done|split]]]].
  - destruct x as [code redirect|]; simpl token_exchange.
    + simpl in Hreq. injection Hreq as <-.
      unfold _getToken. unfold bind at 1. unfold get_options at 1.
      unfold bind at 1. rewrite Hq. exact Hrun.
    + destruct (exchange_request_refresh w req Hreq) as (token & Ht & ->).
      unfold _refresh. unfold bind at 1. unfold get_options at 1.
      unfold bind at 1. unfold get_state at 1.
      unfold bind at 1. unfold lift at 1. rewrite Ht.
      unfold bind at 1. rewrite Hq. exact Hrun.
  - intros k v Hk Hne. subst st'. unfold granted, field.
    rewrite lookup_insert_ne by done.
    by rewrite (lookup_union_Some_l _ _ _ _ Hk).
  - subst st'. unfold granted. simpl.
    rewrite lookup_insert_ne by done.
    destruct (b !! "refresh_token") as [r|] eqn:Hr'.
    + by rewrite (lookup_union_Some_l _ _ _ _ Hr').
    + by rewrite lookup_union_r.
Qed.

End Exchange.

Section Exchange_example.
#[local] Existing Instance Demo.platform.

(** An authorization-code exchange answered with status 500, and a
    refresh that meets a transport failure. *)
Lemma failed_exchange_changes_nothing_witness :
  let w1 := Demo.a_world 1000000 (Demo.credentials 500)
              (Reply 500 (VStr "Internal Server Error")) [] in
  let w2 := Demo.a_world 1000000 (Demo.credentials 2000000) (NetError "ECONNREFUSED") [] in
  (exists e, fst (_getToken (VStr "abc123") (VStr "http://localhost:8080") w1) = Throw e
             /\ state (snd (_getToken (VStr "abc123") (VStr "http://localhost:8080") w1))
                = state w1)
  /\ (exists e, fst (_refresh w2) = Throw e /\ state (snd (_refresh w2)) = state w2).
Proof.
  split.
  - destruct (failed_exchange_changes_nothing
                (AuthorizationCode (VStr "abc123") (VStr "http://localhost:8080"))
                (Demo.a_world 1000000 (Demo.credentials 500)
                   (Reply 500 (VStr "Internal Server Error")) [])
                _ eq_refl) as (e & He & Hs & _).
    + simpl. lia.
    + exists e. simpl in He. rewrite He. split; [reflexivity | exact Hs].
  - destruct (failed_exchange_changes_nothing RefreshToken
                (Demo.a_world 1000000 (Demo.credentials 2000000)
                   (NetError "ECONNREFUSED") [])
                _ eq_refl) as (e & He & Hs & _).
    + exact I.
    + exists e. simpl in He. rewrite He. split; [reflexivity | exact Hs].
Defined.

(** A refresh answered with [{access_token: "new", expires_in: 3600}]
    when the clock shows 1 000 000. *)
Lemma successful_exchange_stores_token_witness :
  let b := <["access_token" := VStr "new"]> (<["expires_in" := VNum (Fin 3600)]> ∅) in
  let w := Demo.a_world 1000000 (Demo.credentials 2000000) (Reply 200 (VObj b)) [] in
  fst (_refresh w) = Ok (VStr "new")
  /\ field (state (snd (_refresh w))) "expires" = VDate (Fin 4600000)
  /\ field (state (snd (_refresh w))) "refresh_token" = VStr "R".
Proof.
  intros b w.
  destruct (successful_exchange_stores_token RefreshToken w
              (_refresh_request Demo.some_options (VStr "R")) b 3600)
    as (w' & Hrun & Hs & _).
  - reflexivity.
  - reflexivity.
  - vm_compute. reflexivity.
  - vm_compute. discriminate.
  - intros p _. apply not_elem_of_empty.
  - simpl in Hrun. rewrite Hrun. simpl. rewrite Hs.
    vm_compute. repeat split.
Defined.

End Exchange_example.

(** ** The full authorization *)

Section Authorization.
Context `{Platform}.

(** [C7] A full authorization whose callback (the first request for
    [/] that reaches the listener) carries an [error] parameter: [_auth]
    rejects with the value of that parameter; no request is sent to the
    token endpoint, and the credentials and the files are what they
    were. *)
Theorem denied_authorization_rejects w p pre r post e :
  listen w (port (options w)) = Some p ->
  browser w = pre ++ r :: post ->
  Forall (fun q => ¬ root_request q) pre ->
  root_request r ->
  get_prop (snd (url_parse (url r))) "error" = Normal e ->
  nullish e = false ->
  exists w', _auth w = (Throw e, w')
             /\ requests w' = requests w
             /\ state w' = state w
             /\ files w' = files w.
Proof.
  intros Hl Hb Hpre Hr He Hn.
  unfold _auth. unfold bind at 1. unfold get_options at 1.
  unfold bind at 1.
  rewrite (qserver_resolves _ _ (fun cbu => open (_auth_url (options w) cbu))
             w p pre r post Hl Hb Hpre Hr).
  cbv zeta. unfold bind at 1. unfold lift at 1. simpl fst. rewrite He, Hn.
  unfold throw. eexists. split; [reflexivity|]. by simpl.
Qed.

End Authorization.

Section Authorization_example.
#[local] Existing Instance Demo.platform.

(** The browser asks for [/favicon.ico], then comes back with
    [/?error=access_denied]. *)
Lemma denied_authorization_rejects_witness :
  let w := Demo.a_world 1000000 (Demo.credentials 500) (NetError "offline")
             [Demo.get "/favicon.ico"; Demo.get "/?error=access_denied"] in
  exists w', _auth w = (Throw (VStr "access_denied"), w')
             /\ requests w' = requests w
             /\ state w' = state w
             /\ files w' = files w.
Proof.
  intros w.
  apply (denied_authorization_rejects w 8080 [Demo.get "/favicon.ico"]
           (Demo.get "/?error=access_denied") []).
  - reflexivity.
  - reflexivity.
  - constructor; [|constructor]. vm_compute. discriminate.
  - reflexivity.
  - reflexivity.
  - reflexivity.
Defined.

End Authorization_example.

(** ** The start-up load *)

Section Startup.
Context `{Platform}.

(** With a token file configured, [_loadConfig] always completes, and
    the state it leaves is decided by the files alone. *)
Lemma loadConfig_from_files w1 w2 p :
  config_file (options w1) = Some p ->
  config_file (options w2) = Some p ->
  files w1 = files w2 ->
  locked w1 = locked w2 ->
  exists s, _loadConfig w1 = (Ok tt, set_state s w1)
            /\ _loadConfig w2 = (Ok tt, set_state s w2).
Proof.
  intros H1 H2 Hf Hl.
  unfold _loadConfig, try_catch, bind, get_options, readFile. rewrite H1, H2, Hf, Hl.
  destruct (decide (p ∈ locked w2)); [by eexists|].
  destruct (files w2 !! p) as [d|]; [|by eexists].
  unfold lift, put_state, get_state.
  destruct (JSON_parse d) as [v|]; [|by eexists]. simpl.
  destruct (get_prop v "expires") as [ex|]; [|by eexists].
  destruct (nullish ex); [by eexists|].
  destruct (new_Date ex) as [dt|]; [|by eexists].
  destruct (set_prop v "expires" dt) as [v'|]; by eexists.
Qed.

Lemma loadConfig_completes w p :
  config_file (options w) = Some p ->
  exists s, _loadConfig w = (Ok tt, set_state s w).
Proof.
  intros Hp. destruct (loadConfig_from_files w w p) as (s & Hs & _); eauto.
Qed.

(** No file, no access to it, or no JSON in it: the state is emptied. *)
Lemma loadConfig_resets w p :
  config_file (options w) = Some p ->
  unreadable w p \/ parses_to w p None ->
  _loadConfig w = (Ok tt, set_state (VObj ∅) w).
Proof.
  intros Hp Hbad.
  unfold _loadConfig, try_catch, bind, get_options, readFile. rewrite Hp.
  destruct Hbad as [[Hl|Hf]|(d & Hl & Hf & Hd)].
  - by rewrite decide_True.
  - destruct (decide (p ∈ locked w)); [done|]. by rewrite Hf.
  - rewrite decide_False, Hf by done. unfold lift. by rewrite Hd.
Qed.

(** A file that holds an object: the object becomes the state, its
    [expires] turned into a Date. *)
Lemma loadConfig_reads w p m :
  config_file (options w) = Some p ->
  parses_to w p (Some (VObj m)) ->
  _loadConfig w =
    (Ok tt,
     set_state
       match m !! "expires" with
       | Some ex =>
           if nullish ex then VObj m
           else match new_Date ex with
                | Normal d => VObj (<["expires" := d]> m)
                | Abrupt _ => VObj ∅
                end
       | None => VObj m
       end w).
Proof.
  intros Hp (d & Hl & Hf & Hd).
  unfold _loadConfig, try_catch, bind, get_options, readFile. rewrite Hp.
  rewrite decide_False, Hf by done. unfold lift, put_state, get_state.
  rewrite Hd. simpl.
  destruct (m !! "expires") as [ex|]; simpl; [|done].
  destruct (nullish ex); [done|].
  by destruct (new_Date ex).
Qed.

Lemma loadHTML_keeps_state w :
  exists w', _loadHTML w = (Ok tt, w')
             /\ state w' = state w /\ files w' = files w /\ locked w' = locked w
             /\ config_file (options w') = config_file (options w).
Proof.
  unfold _loadHTML, try_catch, bind, get_options, readFile, console_error.
  destruct (html_file (options w)) as [p|]; [|by eexists].
  destruct (decide (p ∈ locked w)); [by eexists|].
  destruct (files w !! p); by eexists.
Qed.

(** The state after [new Feedly(a)] and [await ready] is the one that
    [_loadConfig] leaves. *)
Lemma new_Feedly_state a o st p w :
  constructor a = Normal (o, st) ->
  config_file o = Some p ->
  fst (new_Feedly a w) = Ok tt
  /\ state (snd (new_Feedly a w))
     = state (snd (_loadConfig (set_state st (set_options o w)))).
Proof.
  intros Hc Hp. unfold new_Feedly. rewrite Hc. unfold bind.
  destruct (loadConfig_completes (set_state st (set_options o w)) p Hp) as (s & ->).
  destruct (loadHTML_keeps_state (set_state s (set_state st (set_options o w))))
    as (w' & -> & Hs & _).
  by simpl.
Qed.

(** Without a token file the state of the constructor stays. *)
Lemma new_Feedly_without_file a o st w :
  constructor a = Normal (o, st) ->
  config_file o = None ->
  state (snd (new_Feedly a w)) = st.
Proof.
  intros Hc Hp. unfold new_Feedly. rewrite Hc. unfold bind, _loadConfig at 1.
  unfold bind, get_options. simpl. rewrite Hp. unfold ret.
  destruct (loadHTML_keeps_state (set_state st (set_options o w)))
    as (w' & -> & Hs & _).
  by simpl.
Qed.

(** The state that the start-up leaves is never [null] nor
    [undefined]: its properties can be read. *)
Lemma loadConfig_state_not_nullish w p :
  config_file (options w) = Some p ->
  nullish (state (snd (_loadConfig w))) = false.
Proof.
  intros Hp.
  unfold _loadConfig, try_catch, bind, get_options, readFile. rewrite Hp.
  destruct (decide (p ∈ locked w)); [done|].
  destruct (files w !! p) as [d|]; [|done].
  unfold lift, put_state, get_state.
  destruct (JSON_parse d) as [v|]; [|done]. simpl.
  destruct (get_prop v "expires") as [ex|] eqn:Hex; [|done].
  destruct (nullish ex); [by destruct v|].
  destruct (new_Date ex) as [dt|]; [|done].
  destruct (set_prop v "expires" dt) as [v'|] eqn:Hset; [|done].
  destruct v; simpl in Hset; try done. by injection Hset as <-.
Qed.

Lemma constructor_state a o st :
  constructor a = Normal (o, st) -> exists m, st = VObj m.
Proof.
  unfold constructor, cbind.
  destruct (untildify _); [|done]. destruct (untildify _); [|done].
  destruct (o_client_id a); [|done]. destruct (o_client_secret a); [|done].
  match goal with |- context [if ?c then _ else _] => destruct c end;
    intros [= <- <-]; by eexists.
Qed.

Lemma new_Feedly_state_not_nullish a o st w :
  constructor a = Normal (o, st) ->
  nullish (state (snd (new_Feedly a w))) = false.
Proof.
  intros Hc. destruct (config_file o) as [p|] eqn:Hp.
  - destruct (new_Feedly_state a o st p w Hc Hp) as (_ & ->).
    by apply (loadConfig_state_not_nullish (set_state st (set_options o w)) p).
  - rewrite (new_Feedly_without_file a o st w Hc Hp).
    by destruct (constructor_state a o st Hc) as (m & ->).
Qed.

(** [C5] The start-up load of the token file, whatever the path: it
    always completes normally, never throwing nor rejecting.  When the
    file is absent, cannot be read, or does not hold JSON, the
    credentials are left empty.  When it holds an object, that object
    becomes the credentials, the number of milliseconds under [expires]
    turned into the Date of that time. *)
Theorem loadConfig_tolerates_bad_file w p :
  config_file (options w) = Some p ->
  fst (_loadConfig w) = Ok tt
  /\ (unreadable w p \/ parses_to w p None ->
      state (snd (_loadConfig w)) = VObj ∅)
  /\ (forall m t,
        parses_to w p (Some (VObj m)) ->
        m !! "expires" = Some (VNum (Fin t)) ->
        Z.abs t <= max_time ->
        state (snd (_loadConfig w)) = VObj (<["expires" := VDate (Fin t)]> m))
  /\ (forall m,
        parses_to w p (Some (VObj m)) ->
        m !! "expires" = None ->
        state (snd (_loadConfig w)) = VObj m).
Proof.
  intros Hp. repeat split.
  - by destruct (loadConfig_completes w p Hp) as (s & ->).
  - intros Hbad. by rewrite (loadConfig_resets w p Hp Hbad).
  - intros m t Hm Ht Hrange. rewrite (loadConfig_reads w p m Hp Hm), Ht. simpl.
    by rewrite (proj2 (Z.leb_le _ _) Hrange).
  - intros m Hm Hnone. by rewrite (loadConfig_reads w p m Hp Hm), Hnone.
Qed.

End Startup.

Section Startup_example.
#[local] Existing Instance Demo.platform.

(** Four token files: none, one that cannot be read, one that holds no
    JSON, and one that holds tokens expiring at 5 000 000. *)
Lemma loadConfig_tolerates_bad_file_witness :
  let w := Demo.a_world 1000000 (Demo.credentials 9000000) (NetError "offline") [] in
  let p := "/home/u/.feedly" in
  state (snd (_loadConfig w)) = VObj ∅
  /\ state (snd (_loadConfig (Demo.with_files {[p := "{}"]} {[p]} w))) = VObj ∅
  /\ state (snd (_loadConfig (Demo.with_files {[p := "<html>"]} ∅ w))) = VObj ∅
  /\ state (snd (_loadConfig (Demo.with_files {[p := Demo.tokens_text]} ∅ w)))
     = VObj (<["expires" := VDate (Fin 5000000)]> Demo.tokens).
Proof.
  intros w p. split; [|split; [|split]].
  - destruct (loadConfig_tolerates_bad_file w p eq_refl) as (_ & Hbad & _).
    apply Hbad. left. right. reflexivity.
  - destruct (loadConfig_tolerates_bad_file
                (Demo.with_files {[p := "{}"]} {[p]} w) p eq_refl) as (_ & Hbad & _).
    apply Hbad. left. left. simpl. set_solver.
  - destruct (loadConfig_tolerates_bad_file
                (Demo.with_files {[p := "<html>"]} ∅ w) p eq_refl) as (_ & Hbad & _).
    apply Hbad. right. exists "<html>".
    split; [simpl; set_solver | split; reflexivity].
  - destruct (loadConfig_tolerates_bad_file
                (Demo.with_files {[p := Demo.tokens_text]} ∅ w) p eq_refl)
      as (_ & _ & Hgood & _).
    apply (Hgood Demo.tokens 5000000).
    + exists Demo.tokens_text. split; [simpl; set_solver | split; reflexivity].
    + reflexivity.
    + vm_compute. discriminate.
Defined.

End Startup_example.

(** ** Logging out *)

Section Logout.
Context `{Platform}.

(** Whatever the provider answers, all that an unawaited [qrequest]
    leaves behind is the request in the log. *)
Lemma qrequest_logs w req :
  snd (qrequest req None w) = logged req w.
Proof.
  unfold qrequest, bind, request_. simpl.
  destruct (provider w (requests w) req) as [msg|code b]; [done|].
  by destruct (code =? 200).
Qed.

(** Merging a promise into an object adds nothing. *)
Lemma Object_assign_promise m :
  Object_assign [VObj m; VPromise] = VObj m.
Proof.
  unfold Object_assign. simpl.
  by rewrite (right_id_L ∅ (∪)), (left_id_L ∅ (∪)).
Qed.

(** The credentials once [logout] has deleted its six properties. *)
Lemma logout_clears w m :
  state w = VObj m ->
  writable w ->
  let cleared :=
    VObj (delete "token_type" (delete "refresh_token" (delete "provider"
           (delete "plan" (delete "expires" (delete "access_token" m)))))) in
  exists w', logout None w = (Ok VUndef, w')
             /\ state w' = cleared
             /\ files w' = saved cleared w
             /\ requests w'
                = requests w ++ [_revoke_request (options w) (field (state w) "refresh_token")].
Proof.
  intros Hm Hw cleared.
  unfold logout, _nodify.
  unfold bind at 1. unfold get_options at 1.
  unfold bind at 1. unfold get_state at 1.
  unfold bind at 1. unfold lift at 1. rewrite Hm. simpl get_prop. cbv iota.
  unfold bind at 1. unfold unawaited at 1. rewrite qrequest_logs.
  unfold delete_state, bind, get_state, put_state, lift. simpl.
  rewrite Hm. simpl. rewrite Object_assign_promise. fold cleared.
  rewrite save_writes.
  - eexists. split; [reflexivity|]. by simpl.
  - intros p. simpl. apply Hw.
Qed.

(** [C8] The code at one input: the credentials hold an access token,
    a refresh token, an expiry and the user id, and the provider answers
    the revocation with status 200 and the body [{revoked: true}].
    [logout] sends the revocation request, removes the tokens and the
    expiry, and saves what is left; the credentials that result do not
    hold the [revoked] field of the response: nothing of the response is
    merged, as the value merged is the promise of [qrequest], which has
    no property of its own. *)
Theorem logout_drops_revoke_response :
  let answer := VObj (<["revoked" := VBool true]> ∅) in
  let w := Demo.a_world 1000000 (Demo.credentials 9001000) (Reply 200 answer) [] in
  let left_over := VObj (<["id" := VStr "u1"]> ∅) in
  fst (logout None w) = Ok VUndef
  /\ requests (snd (logout None w)) = [_revoke_request Demo.some_options (VStr "R")]
  /\ state (snd (logout None w)) = left_over
  /\ field (state (snd (logout None w))) "revoked" = VUndef
  /\ files (snd (logout None w))
     = <["/home/u/.feedly" := JSON_stringify left_over]> ∅.
Proof. vm_compute. repeat split. Qed.

End Logout.

(** ** The entry markers *)

Section Markers.
Context `{Platform}.

(** Neither the parameters of [markEntrySaved] nor the declarations of
    the module bind the name [f]. *)
Lemma f_is_free : "f" ∉ ["ids"; "cb"] ++ module_scope.
Proof. apply (bool_decide_unpack _). by vm_compute. Qed.

(** [C10] [markEntrySaved] and [markEntryUnsaved], on every argument:
    when the global object has no property [f], the call throws the
    ReferenceError of the identifier [f] and leaves the world as it was;
    no request is sent. *)
Theorem markEntry_throws_ReferenceError w ids cb :
  globals w !! "f" = None ->
  markEntrySaved ids cb w = (Throw (ReferenceError "f"), w)
  /\ markEntryUnsaved ids cb w = (Throw (ReferenceError "f"), w).
Proof.
  intros Hf. unfold markEntrySaved, markEntryUnsaved, bind, global_identifier.
  by rewrite Hf.
Qed.

End Markers.

Section Markers_example.
#[local] Existing Instance Demo.platform.

(** Marking the entry ["e1"] as saved, with valid credentials. *)
Lemma markEntry_throws_ReferenceError_witness :
  let w := Demo.a_world 1000000 (Demo.credentials 9001000) (NetError "offline") [] in
  markEntrySaved (VStr "e1") None w = (Throw (ReferenceError "f"), w)
  /\ markEntryUnsaved (VStr "e1") None w = (Throw (ReferenceError "f"), w).
Proof.
  intros w. apply (markEntry_throws_ReferenceError w (VStr "e1") None).
  reflexivity.
Defined.

End Markers_example.

(** * Further properties *)

(** ** The arguments of the public methods *)

Section Arguments.
Context `{Platform}.

(** [X1] [_pickCB] finds the callback wherever it stands among the
    arguments: it returns the first function together with the values
    before it, and drops whatever follows; without a function it returns
    [null] and all the values. *)
Theorem pickCB_finds_first_function (vs : list jsval) (f : callback) (post : list arg) :
  _pickCB ((Val <$> vs) ++ Fn f :: post) = (Fn f, vs)
  /\ _pickCB (Val <$> vs) = (Val VNull, vs).
Proof.
  induction vs as [|v vs [IH1 IH2]]; [done|].
  rewrite fmap_cons. split.
  - change ((Val v :: (Val <$> vs)) ++ Fn f :: post)
      with (Val v :: ((Val <$> vs) ++ Fn f :: post)).
    cbn [_pickCB]. by rewrite IH1.
  - cbn [_pickCB]. by rewrite IH2.
Qed.

(** [X2] [counts] takes its callback in the place of any of its
    optional arguments: the arguments that follow the callback are
    ignored, those left out are [undefined].  Without any filter the
    body of the request is [null]. *)
Theorem counts_callback_in_any_place (f : callback) (a b c : arg) (u v : jsval) :
  counts (Fn f) a b c = counts (Val VUndef) (Val VUndef) (Val VUndef) (Fn f)
  /\ counts (Val u) (Fn f) b c = counts (Val u) (Val VUndef) (Val VUndef) (Fn f)
  /\ counts (Val u) (Val v) (Fn f) c = counts (Val u) (Val v) (Val VUndef) (Fn f)
  /\ counts (Val VUndef) (Val VUndef) (Val VUndef) (Fn f)
     = _request (Some f) "/v3/markers/counts" (Some "GET") VNull.
Proof. repeat split. Qed.

(** [X3] [counts] with a [newerThan] that is not a Date (a number of
    milliseconds, say): the call throws a TypeError at once; nothing is
    sent and the world is as it was. *)
Theorem counts_wants_a_Date (a v : jsval) (s c : arg) (w : world) :
  nullish v = false ->
  (forall t, v ≠ VDate t) ->
  exists msg, counts (Val a) (Val v) s c w = (Throw (TypeError msg), w).
Proof.
  intros Hn Hd. unfold counts.
  assert (Hv : exists msg, getTime v = Abrupt (TypeError msg)).
  { destruct v; simpl; try by eexists. by destruct (Hd t). }
  destruct Hv as (msg & Hv). exists msg.
  destruct s as [s|fs], c as [c|fc]; simpl; unfold el; simpl;
    rewrite Hn; unfold bind, lift; by rewrite Hv.
Qed.

(** [X4] [_streamOptions] on an options object: the object returned has
    the same properties, each Date replaced by its time in milliseconds
    and every other value untouched; no Date is left, so that going
    through [_streamOptions] again changes nothing.  A number or a
    boolean as options is a TypeError. *)
Theorem streamOptions_converts_dates (m : gmap string jsval) (cb : arg) :
  exists m',
    _streamOptions (Val (VObj m)) cb = Normal (VObj m', cb)
    /\ dom m' = dom m
    /\ (forall k t, m !! k = Some (VDate t) -> m' !! k = Some (VNum t))
    /\ (forall k v, m !! k = Some v -> (forall t, v ≠ VDate t) -> m' !! k = Some v)
    /\ (forall k t, m' !! k ≠ Some (VDate t))
    /\ _streamOptions (Val (VObj m')) cb = Normal (VObj m', cb)
    /\ (forall n, _streamOptions (Val (VNum n)) cb
                  = Abrupt (TypeError "Unknown options type"))
    /\ (forall b, _streamOptions (Val (VBool b)) cb
                  = Abrupt (TypeError "Unknown options type")).
Proof.
  exists (date_to_time <$> m). split; [done|]. split; [apply dom_fmap_L|].
  split; [|split; [|split; [|split; [|done]]]].
  - intros k t Hk. by rewrite lookup_fmap, Hk.
  - intros k v Hk Hv. rewrite lookup_fmap, Hk. simpl. f_equal.
    destruct v; try done. by destruct (Hv t).
  - intros k t. rewrite lookup_fmap.
    destruct (m !! k) as [v|]; [|done]. simpl. by destruct v.
  - simpl. do 3 f_equal. rewrite <- map_fmap_compose.
    apply map_eq. intros k. rewrite !lookup_fmap.
    destruct (m !! k) as [v|]; [|done]. simpl. by destruct v.
Qed.

Lemma starts_with_user (x : string) : starts_with "user/" ("user/" +:+ x) = true.
Proof. reflexivity. Qed.

Lemma normalize_category_fixed userid c c' :
  normalize_category userid c = Normal c' ->
  normalize_category userid c' = Normal c'
  /\ exists s, c' = VStr s /\ starts_with "user/" s = true.
Proof.
  destruct c; try done. unfold normalize_category at 1.
  destruct (starts_with "user/" s) eqn:Hs; intros Hc;
    assert (Hc' := f_equal (fun r => match r with Normal v => v | Abrupt v => v end) Hc);
    cbv beta iota in Hc'; subst c'.
  - split; [unfold normalize_category; by rewrite Hs | eauto].
  - split; [unfold normalize_category; by rewrite starts_with_user|].
    eexists. split; [done | apply starts_with_user].
Qed.

Lemma map_values_fixed userid l l' :
  map_values (normalize_category userid) l = Normal l' ->
  map_values (normalize_category userid) l' = Normal l'
  /\ Forall (fun c => exists s, c = VStr s /\ starts_with "user/" s = true) l'.
Proof.
  revert l'. induction l as [|c l IH]; intros l'; simpl.
  - intros [= <-]. by split.
  - destruct (normalize_category userid c) as [c'|] eqn:Hc; [|done]. simpl.
    destruct (map_values (normalize_category userid) l) as [l0|] eqn:Hl; [|done].
    simpl. intros [= <-].
    destruct (normalize_category_fixed userid c c' Hc) as (Hc' & Hs).
    destruct (IH l0 eq_refl) as (Hl0 & Hall).
    split; [|by constructor]. simpl. by rewrite Hc', Hl0.
Qed.

(** [X5] [_normalizeCategories] is idempotent: the array it returns
    holds only ids under [user/], and normalizing that array again
    returns it unchanged.  The credentials are only read. *)
Theorem normalizeCategories_idempotent (l l' : list jsval) (w w' : world) :
  _normalizeCategories (VArr l) w = (Ok (VArr l'), w') ->
  w' = w
  /\ _normalizeCategories (VArr l') w = (Ok (VArr l'), w)
  /\ Forall (fun c => exists s, c = VStr s /\ starts_with "user/" s = true) l'.
Proof.
  unfold _normalizeCategories, bind, get_state, lift.
  destruct (get_prop (state w) "id") as [userid|]; [|done].
  destruct (map_values (normalize_category userid) l) as [l0|] eqn:Hl; [|done].
  simpl. intros [= <- <-].
  destruct (map_values_fixed userid l l0 Hl) as (Hl0 & Hall).
  by rewrite Hl0.
Qed.

End Arguments.

Section Arguments_example.
#[local] Existing Instance Demo.platform.

(** [counts(true, 1500000000000)]: the time as a number. *)
Lemma counts_wants_a_Date_witness :
  let w := Demo.a_world 1000000 (Demo.credentials 9001000) (NetError "offline") [] in
  exists msg,
    counts (Val (VBool true)) (Val (VNum (Fin 1500000000000)))
           (Val VUndef) (Val VUndef) w
    = (Throw (TypeError msg), w).
Proof.
  intros w.
  apply (counts_wants_a_Date (VBool true) (VNum (Fin 1500000000000))
           (Val VUndef) (Val VUndef) w).
  - reflexivity.
  - intros t. discriminate.
Defined.

(** The categories [tech] and [user/u1/category/news] of the user [u1]. *)
Lemma normalizeCategories_idempotent_witness :
  let w := Demo.a_world 1000000 (Demo.credentials 9001000) (NetError "offline") [] in
  let l' := [VStr "user/u1/category/tech"; VStr "user/u1/category/news"] in
  _normalizeCategories (VArr l') w = (Ok (VArr l'), w).
Proof.
  intros w l'.
  apply (normalizeCategories_idempotent
           [VStr "tech"; VStr "user/u1/category/news"] l' w w).
  reflexivity.
Defined.

End Arguments_example.

(** ** Callbacks and the callback listener *)

Section Callbacks.
Context `{Platform}.

(** [X6] A request that fails while a callback is attached: the error
    (an Error object) goes to the callback, and the promise that
    [qrequest] returns ends as the callback ends, fulfilled with what
    the callback returns; without a callback the promise is rejected
    with the error. *)
Theorem qrequest_callback_takes_the_failure req cb w :
  exchange_fails (provider w (requests w) req) ->
  exists msg,
    qrequest req None w = (Throw (Error msg), logged req w)
    /\ qrequest req (Some cb) w = (called (cb (Error msg) VUndef), logged req w).
Proof.
  intros Hf. unfold qrequest, then_, bind, request_, lift, throw, ret. simpl.
  destruct (provider w (requests w) req) as [msg|code b]; simpl in *.
  - eexists. split; [reflexivity|].
    match goal with |- context [cb ?e VUndef] => destruct (cb e VUndef) end;
      reflexivity.
  - destruct (code =? 200) eqn:Hc; [apply Z.eqb_eq in Hc; lia|].
    eexists. split; [reflexivity|].
    match goal with |- context [cb ?e VUndef] => destruct (cb e VUndef) end;
      reflexivity.
Qed.

(** Where the first request for [/] stands, if there is one. *)
Lemma first_root_request (reqs : list http_request) :
  Forall (fun q => ¬ root_request q) reqs
  \/ exists pre r post,
       reqs = pre ++ r :: post
       /\ Forall (fun q => ¬ root_request q) pre /\ root_request r.
Proof.
  induction reqs as [|q reqs IH]; [by left|].
  destruct (decide (fst (url_parse (url q)) = Some "/")) as [Hq|Hq].
  - right. exists [], q, reqs. by repeat split.
  - destruct IH as [IH|(pre & r & post & -> & Hpre & Hr)].
    + left. by constructor.
    + right. exists (q :: pre), r, post. repeat split; [|done]. by constructor.
Qed.

(** [X15] The callback listener on any sequence of requests: every
    request gets exactly one answer, the promise is resolved at most
    once, the listener is open exactly as long as the promise is
    unsettled, and the page is served at most once. *)
Theorem listener_settles_at_most_once text reqs :
  let s := serve text reqs createServer in
  length (answers s) = length reqs
  /\ (resolutions s <= 1)%nat
  /\ (listening s = true <-> settled s = None)
  /\ (forall i j, answers s !! i = Some (page text) ->
                  answers s !! j = Some (page text) -> i = j).
Proof.
  destruct (first_root_request reqs) as [Hall|(pre & r & post & -> & Hpre & Hr)].
  - rewrite (serve_stray text reqs createServer eq_refl Hall). simpl.
    split; [by rewrite length_fmap|]. split; [lia|]. split; [done|].
    intros i j Hi _. rewrite list_lookup_fmap in Hi.
    by destruct (reqs !! i).
  - rewrite (serve_root text pre r post Hpre Hr). simpl.
    split; [rewrite !length_app; simpl; by rewrite !length_fmap|].
    split; [lia|]. split; [done|].
    assert (Hone : forall i, (((fun _ => not_found) <$> pre) ++ page text
                                :: ((fun _ => Refused) <$> post)) !! i
                             = Some (page text) -> i = length pre).
    { intros i Hi.
      destruct (decide (i < length pre)%nat) as [Hlt|Hge].
      - rewrite lookup_app_l, list_lookup_fmap in Hi by by rewrite length_fmap.
        by destruct (pre !! i).
      - rewrite lookup_app_r, length_fmap in Hi by (rewrite length_fmap; lia).
        destruct (i - length pre)%nat as [|k] eqn:Hk; [lia|].
        simpl in Hi. rewrite list_lookup_fmap in Hi. by destruct (post !! k). }
    intros i j Hi Hj. by rewrite (Hone i Hi), (Hone j Hj).
Qed.

(** [X7] A full authorization whose listener cannot be bound, or to
    which no request for [/] comes: [_auth] never settles; no request
    goes to the token endpoint, and the credentials and the files stay
    as they are. *)
Theorem auth_waits_for_the_callback w :
  (forall p, listen w (port (options w)) = Some p ->
             Forall (fun q => ¬ root_request q) (browser w)) ->
  exists w', _auth w = (Pending, w')
             /\ requests w' = requests w
             /\ state w' = state w
             /\ files w' = files w.
Proof.
  intros Hstray. unfold _auth. unfold bind at 1. unfold get_options at 1.
  unfold bind at 1. unfold qserver.
  destruct (listen w (port (options w))) as [p|] eqn:Hl; [|by eexists].
  simpl. rewrite (serve_stray _ _ createServer eq_refl (Hstray p eq_refl)).
  simpl. by eexists.
Qed.

End Callbacks.

Section Callbacks_example.
#[local] Existing Instance Demo.platform.

(** A request answered with status 503, and a callback that reports
    [false] on an error. *)
Lemma qrequest_callback_takes_the_failure_witness :
  let w := Demo.a_world 1000000 (Demo.credentials 9001000)
             (Reply 503 (VStr "Service Unavailable")) [] in
  let req := {| method := "GET"; uri := "http://sandbox.feedly.com/v3/profile";
                headers := []; body := VNull |} in
  qrequest req (Some Samples.report) w = (Ok (VBool false), logged req w).
Proof.
  intros w req.
  destruct (qrequest_callback_takes_the_failure req Samples.report w)
    as (msg & _ & Hcb).
  - simpl. lia.
  - rewrite Hcb. reflexivity.
Defined.

(** The browser only asks for [/favicon.ico]. *)
Lemma auth_waits_for_the_callback_witness :
  let w := Demo.a_world 1000000 (Demo.credentials 500) (NetError "offline")
             [Demo.get "/favicon.ico"] in
  exists w', _auth w = (Pending, w')
             /\ requests w' = requests w
             /\ state w' = state w
             /\ files w' = files w.
Proof.
  intros w. apply (auth_waits_for_the_callback w).
  intros p _. constructor; [|constructor]. vm_compute. discriminate.
Defined.

End Callbacks_example.

(** ** Authorization and refresh, end to end *)

Section End_to_end.
Context `{Platform}.

Lemma getToken_unfold code redirect :
  _getToken code redirect =
    (let! o := get_options in
     let! b := qrequest (_getToken_request o code redirect) None in
     store_token b).
Proof. reflexivity. Qed.

Lemma refresh_unfold :
  _refresh =
    (let! o := get_options in
     let! st0 := get_state in
     let! token := lift (get_prop st0 "refresh_token") in
     let! b := qrequest (_refresh_request o token) None in
     store_token b).
Proof. reflexivity. Qed.

(** The response is merged, stamped and saved. *)
Lemma store_token_runs w b n :
  b !! "expires_in" = Some (VNum (Fin n)) ->
  Z.abs (now w + n * 1000) <= max_time ->
  writable w ->
  store_token (VObj b) w =
    (Ok (field (granted w b n) "access_token"),
     set_files (saved (granted w b n) w) (set_state (granted w b n) (tick w))).
Proof.
  intros Hb Hrange Hw. unfold store_token.
  unfold bind at 1. unfold get_state at 1.
  unfold bind at 1. unfold put_state at 1. rewrite Object_assign_pair.
  unfold bind at 1. unfold get_state at 1. simpl state.
  unfold bind at 1. unfold Date_now at 1.
  unfold bind at 1. unfold lift at 1. simpl get_prop. rewrite Hb. simpl default.
  unfold bind at 1. unfold lift at 1. simpl ToNumber.
  unfold bind at 1. unfold lift at 1. simpl set_prop.
  simpl num_add.
  change (clock (set_state (VObj (b ∪ own_props (state w))) w)
            (ticks (set_state (VObj (b ∪ own_props (state w))) w))) with (now w).
  unfold now in Hrange. rewrite (proj2 (Z.leb_le _ _) Hrange).
  cbv iota. unfold bind at 1. unfold put_state at 1.
  unfold bind at 1. rewrite save_writes.
  - reflexivity.
  - intros p. simpl. apply Hw.
Qed.

Lemma getToken_runs w code redirect b n :
  provider w (requests w) (_getToken_request (options w) code redirect)
    = Reply 200 (VObj b) ->
  b !! "expires_in" = Some (VNum (Fin n)) ->
  Z.abs (now w + n * 1000) <= max_time ->
  writable w ->
  _getToken code redirect w =
    (Ok (field (granted w b n) "access_token"),
     exchanged (_getToken_request (options w) code redirect) (granted w b n) w).
Proof.
  intros Hp Hb Hrange Hw. rewrite getToken_unfold.
  unfold bind at 1. unfold get_options at 1.
  unfold bind at 1. rewrite (qrequest_resolves w _ _ Hp).
  by rewrite (store_token_runs
                (logged (_getToken_request (options w) code redirect) w)
                b n Hb Hrange Hw).
Qed.

Lemma refresh_runs w b n :
  nullish (state w) = false ->
  provider w (requests w)
    (_refresh_request (options w) (field (state w) "refresh_token"))
    = Reply 200 (VObj b) ->
  b !! "expires_in" = Some (VNum (Fin n)) ->
  Z.abs (now w + n * 1000) <= max_time ->
  writable w ->
  _refresh w =
    (Ok (field (granted w b n) "access_token"),
     exchanged (_refresh_request (options w) (field (state w) "refresh_token"))
       (granted w b n) w).
Proof.
  intros Hst Hp Hb Hrange Hw. rewrite refresh_unfold.
  unfold bind at 1. unfold get_options at 1.
  unfold bind at 1. unfold get_state at 1.
  unfold bind at 1. unfold lift at 1. rewrite (get_prop_field _ _ Hst).
  unfold bind at 1. rewrite (qrequest_resolves w _ _ Hp).
  by rewrite (store_token_runs
                (logged (_refresh_request (options w)
                           (field (state w) "refresh_token")) w)
                b n Hb Hrange Hw).
Qed.

Lemma refresh_rejects w :
  nullish (state w) = false ->
  exchange_fails
    (provider w (requests w)
       (_refresh_request (options w) (field (state w) "refresh_token"))) ->
  exists e, _refresh w =
    (Throw e,
     logged (_refresh_request (options w) (field (state w) "refresh_token")) w).
Proof.
  intros Hst Hf. destruct (qrequest_rejects w _ Hf) as (e & He).
  exists e. rewrite refresh_unfold.
  unfold bind at 1. unfold get_options at 1.
  unfold bind at 1. unfold get_state at 1.
  unfold bind at 1. unfold lift at 1. rewrite (get_prop_field _ _ Hst).
  unfold bind at 1. by rewrite He.
Qed.

Lemma validToken_accepts w t :
  valid_until w t -> _validToken w = (Ok true, tick w).
Proof.
  intros (Hst & Ha & Hr & He & Ht & Hnow).
  unfold _validToken, bind, get_state, lift, Date_now, ret.
  rewrite !get_prop_field by done. rewrite Ha, Hr, He, Ht.
  unfold now in Hnow. simpl. by rewrite (proj2 (Z.ltb_lt _ _) Hnow).
Qed.

(** With more time left than the slop, [_getAuth] goes on as [_refresh]
    does, the clock read twice. *)
Lemma getAuth_beyond_slop w t s :
  valid_until w t ->
  slop (options w) = Fin s ->
  s < t - now (tick w) ->
  _getAuth w = _refresh (tick (tick w)).
Proof.
  intros Hv Hs Hfar. unfold _getAuth. unfold bind at 1.
  rewrite (validToken_accepts w t Hv).
  destruct Hv as (Hst & Ha & Hr & He & Ht & Hnow).
  unfold bind, get_options, get_state, lift, Date_now. simpl.
  rewrite !get_prop_field by done. rewrite Ht, Hs. simpl.
  unfold now, tick in Hfar. simpl in Hfar.
  by rewrite (proj2 (Z.ltb_lt _ _) Hfar).
Qed.

(** The callback brings an error: [_auth] rejects with it. *)
Lemma auth_rejects w p pre r post e :
  listen w (port (options w)) = Some p ->
  browser w = pre ++ r :: post ->
  Forall (fun q => ¬ root_request q) pre ->
  root_request r ->
  get_prop (snd (url_parse (url r))) "error" = Normal e ->
  nullish e = false ->
  exists w', _auth w = (Throw e, w') /\ requests w' = requests w.
Proof.
  intros Hl Hb Hpre Hr He Hn.
  unfold _auth. unfold bind at 1. unfold get_options at 1.
  unfold bind at 1.
  rewrite (qserver_resolves _ _ (fun cbu => open (_auth_url (options w) cbu))
             w p pre r post Hl Hb Hpre Hr).
  cbv zeta. unfold bind at 1. unfold lift at 1. simpl fst. rewrite He, Hn.
  unfold throw. eexists. split; [reflexivity|]. by simpl.
Qed.

(** [X8] A full authorization that goes through: the first request for
    [/] brings a code and no error, and the provider answers the
    exchange with status 200 and an object holding [expires_in = n].
    The browser was sent to the authorization URL whose [redirect_uri]
    is the address of the listener, the one request sent to the token
    endpoint carries that code and that same address as [redirect_uri],
    and the credentials hold the merged response, stamped and saved. *)
Theorem auth_exchanges_the_code w p pre r post er code b n :
  listen w (port (options w)) = Some p ->
  browser w = pre ++ r :: post ->
  Forall (fun q => ¬ root_request q) pre ->
  root_request r ->
  get_prop (snd (url_parse (url r))) "error" = Normal er ->
  nullish er = true ->
  get_prop (snd (url_parse (url r))) "code" = Normal code ->
  provider w (requests w)
    (_getToken_request (options w) code (VStr (callback_url p)))
    = Reply 200 (VObj b) ->
  b !! "expires_in" = Some (VNum (Fin n)) ->
  Z.abs (now w + n * 1000) <= max_time ->
  writable w ->
  exists w',
    _auth w = (Ok (field (granted w b n) "access_token"), w')
    /\ state w' = granted w b n
    /\ files w' = saved (granted w b n) w
    /\ opened w' = opened w ++ [_auth_url (options w) (callback_url p)]
    /\ requests w'
       = requests w ++ [_getToken_request (options w) code (VStr (callback_url p))].
Proof.
  intros Hl Hb Hpre Hr He Hn Hcode Hp Hexp Hrange Hw.
  unfold _auth. unfold bind at 1. unfold get_options at 1.
  unfold bind at 1.
  rewrite (qserver_resolves _ _ (fun cbu => open (_auth_url (options w) cbu))
             w p pre r post Hl Hb Hpre Hr).
  cbv zeta. unfold bind at 1. unfold lift at 1. simpl fst. rewrite He, Hn.
  simpl fst. unfold bind at 1. unfold lift at 1. rewrite Hcode, Hl.
  erewrite getToken_runs; [| exact Hp | exact Hexp | exact Hrange | exact Hw].
  eexists. split; [reflexivity|]. by simpl.
Qed.

(** [X12] An API call while the user denies the authorization: the
    credentials are not valid and the callback of the browser brings an
    [error].  The call rejects with that error, whether a node-style
    callback was given or not: the callback is not called, and no
    request is sent, neither to the token endpoint nor to the API. *)
Theorem request_rejects_when_denied w p pre r post e cb path method body :
  nullish (state w) = false ->
  no_valid_token w ->
  listen w (port (options w)) = Some p ->
  browser w = pre ++ r :: post ->
  Forall (fun q => ¬ root_request q) pre ->
  root_request r ->
  get_prop (snd (url_parse (url r))) "error" = Normal e ->
  nullish e = false ->
  exists w', _request cb path method body w = (Throw e, w')
             /\ requests w' = requests w.
Proof.
  intros Hst Hno Hl Hb Hpre Hr He Hn.
  destruct (validToken_rejects w Hst Hno) as (w1 & Hv & Hw1).
  assert (Hauth : exists w', _auth w1 = (Throw e, w') /\ requests w' = requests w).
  { destruct Hw1 as [->| ->].
    - by apply (auth_rejects w p pre r post e).
    - by apply (auth_rejects (tick w) p pre r post e). }
  destruct Hauth as (w' & Hauth & Hreq).
  exists w'. split; [|done].
  unfold _request. unfold bind at 1. unfold get_options at 1.
  unfold bind at 1. unfold _getAuth. unfold bind at 1. rewrite Hv.
  cbn [negb]. by rewrite Hauth.
Qed.

(** [X9] A token with more time left than the slop, and a refresh that
    the provider fails: [_getAuth] rejects with the error of the
    refresh.  It does not fall back on the full authorization: no
    browser is opened, and the credentials and the files stay. *)
Theorem getAuth_does_not_fall_back w t s :
  valid_until w t ->
  slop (options w) = Fin s ->
  s < t - now (tick w) ->
  exchange_fails
    (provider w (requests w)
       (_refresh_request (options w) (field (state w) "refresh_token"))) ->
  exists e w',
    _getAuth w = (Throw e, w')
    /\ opened w' = opened w
    /\ served w' = served w
    /\ state w' = state w
    /\ files w' = files w
    /\ requests w'
       = requests w ++ [_refresh_request (options w) (field (state w) "refresh_token")].
Proof.
  intros Hv Hs Hfar Hf.
  rewrite (getAuth_beyond_slop w t s Hv Hs Hfar).
  destruct Hv as (Hst & _).
  destruct (refresh_rejects (tick (tick w)) Hst Hf) as (e & He).
  exists e. eexists. split; [exact He|]. by simpl.
Qed.

(** [X17] The manual [refresh] with valid credentials, however far
    their expiry: it sends the refresh request, and when the provider
    answers with status 200 and an object holding [expires_in = n], it
    returns the access token of the merged credentials, which are
    stamped with the new expiry and saved. *)
Theorem refresh_renews_a_valid_token w t b n :
  valid_until w t ->
  provider w (requests w)
    (_refresh_request (options w) (field (state w) "refresh_token"))
    = Reply 200 (VObj b) ->
  b !! "expires_in" = Some (VNum (Fin n)) ->
  Z.abs (now (tick w) + n * 1000) <= max_time ->
  writable w ->
  exists w',
    refresh None w = (Ok (field (granted (tick w) b n) "access_token"), w')
    /\ state w' = granted (tick w) b n
    /\ files w' = saved (granted (tick w) b n) w
    /\ requests w'
       = requests w ++ [_refresh_request (options w) (field (state w) "refresh_token")].
Proof.
  intros Hv Hp Hb Hrange Hw.
  unfold refresh, _nodify. unfold bind at 1.
  rewrite (validToken_accepts w t Hv).
  destruct Hv as (Hst & _).
  rewrite (refresh_runs (tick w) b n Hst Hp Hb Hrange Hw).
  eexists. split; [reflexivity|]. by simpl.
Qed.

End End_to_end.

Section End_to_end_example.
#[local] Existing Instance Demo.platform.

(** The browser comes back with [/?code=abc123] and the provider
    grants [{access_token: "new", expires_in: 3600}]. *)
Lemma auth_exchanges_the_code_witness :
  let w := Demo.a_world 1000000 (Demo.credentials 500)
             (Reply 200 (VObj Samples.fresh))
             [Demo.get "/favicon.ico"; Demo.get "/?code=abc123"] in
  exists w',
    _auth w = (Ok (VStr "new"), w')
    /\ requests w'
       = [_getToken_request Demo.some_options (VStr "abc123")
            (VStr "http://localhost:8080")].
Proof.
  intros w.
  destruct (auth_exchanges_the_code w 8080 [Demo.get "/favicon.ico"]
              (Demo.get "/?code=abc123") [] VUndef (VStr "abc123")
              Samples.fresh 3600)
    as (w' & Hrun & _ & _ & _ & Hreq).
  - reflexivity.
  - reflexivity.
  - constructor; [|constructor]. vm_compute. discriminate.
  - reflexivity.
  - reflexivity.
  - reflexivity.
  - reflexivity.
  - reflexivity.
  - reflexivity.
  - vm_compute. discriminate.
  - intros p _. apply not_elem_of_empty.
  - exists w'. split; [exact Hrun | exact Hreq].
Defined.

(** Expired credentials, a browser that comes back with
    [/?error=access_denied], and a call with a callback. *)
Lemma request_rejects_when_denied_witness :
  let w := Demo.a_world 1000000 (Demo.credentials 500) (NetError "offline")
             [Demo.get "/?error=access_denied"] in
  exists w', _request (Some Samples.report) "/v3/profile" None VNull w
             = (Throw (VStr "access_denied"), w')
             /\ requests w' = requests w.
Proof.
  intros w.
  apply (request_rejects_when_denied w 8080 [] (Demo.get "/?error=access_denied") []).
  - reflexivity.
  - right; right; right. exists 500. split; [reflexivity|].
    unfold now. simpl. lia.
  - reflexivity.
  - reflexivity.
  - constructor.
  - reflexivity.
  - reflexivity.
  - reflexivity.
Defined.

(** A token good for 8 001 000 ms more, a slop of 3 600 000 ms, and a
    provider that cannot be reached. *)
Lemma getAuth_does_not_fall_back_witness :
  let w := Demo.a_world 1000000 (Demo.credentials 9001000) (NetError "offline")
             [Demo.get "/?code=abc123"] in
  exists e w', _getAuth w = (Throw e, w') /\ opened w' = [] /\ state w' = state w.
Proof.
  intros w.
  destruct (getAuth_does_not_fall_back w 9001000 3600000)
    as (e & w' & Hrun & Ho & _ & Hs & _).
  - repeat split; try reflexivity.
  - reflexivity.
  - vm_compute. reflexivity.
  - exact I.
  - exists e, w'. split; [exact Hrun|]. split; [exact Ho | exact Hs].
Defined.

(** A token good for 1 000 ms more, refreshed by hand. *)
Lemma refresh_renews_a_valid_token_witness :
  let w := Demo.a_world 1000000 (Demo.credentials 1001000)
             (Reply 200 (VObj Samples.fresh)) [] in
  exists w', refresh None w = (Ok (VStr "new"), w')
             /\ field (state w') "expires" = VDate (Fin 4600000).
Proof.
  intros w.
  destruct (refresh_renews_a_valid_token w 1001000 Samples.fresh 3600)
    as (w' & Hrun & Hs & _).
  - repeat split; try reflexivity.
  - reflexivity.
  - reflexivity.
  - vm_compute. discriminate.
  - intros p _. apply not_elem_of_empty.
  - exists w'. split; [exact Hrun|]. rewrite Hs. reflexivity.
Defined.

End End_to_end_example.

(** ** The full authorization, seen from outside *)

Section Observable.
Context `{Platform}.

Lemma silent_ret {A} (a : A) : silent (ret a).
Proof. by intros w. Qed.

Lemma silent_lift {A} (c : completion A) : silent (lift c).
Proof. intros w. unfold lift. by destruct c. Qed.

Lemma silent_get_state : silent get_state.
Proof. by intros w. Qed.

Lemma silent_put_state s : silent (put_state s).
Proof. by intros w. Qed.

Lemma silent_get_options : silent get_options.
Proof. by intros w. Qed.

Lemma silent_Date_now : silent Date_now.
Proof. by intros w. Qed.

Lemma silent_writeFile p d : silent (writeFile p d).
Proof. intros w. unfold writeFile. by destruct (decide _). Qed.

Lemma silent_bind {A B} (m : M A) (k : A -> M B) :
  silent m -> (forall a, silent (k a)) -> silent (bind m k).
Proof.
  intros Hm Hk w. unfold bind.
  destruct (Hm w) as (Hr & Ho).
  destruct (m w) as [[a|e|] w1]; simpl in *; [|done..].
  destruct (Hk a w1) as (Hr' & Ho'). by rewrite Hr', Ho'.
Qed.

Ltac silent_step :=
  match goal with
  | |- silent (bind _ _) => apply silent_bind; [|intros ?]
  | |- silent (ret _) => apply silent_ret
  | |- silent (lift _) => apply silent_lift
  | |- silent get_state => apply silent_get_state
  | |- silent (put_state _) => apply silent_put_state
  | |- silent get_options => apply silent_get_options
  | |- silent Date_now => apply silent_Date_now
  | |- silent (writeFile _ _) => apply silent_writeFile
  | |- silent (match ?x with _ => _ end) => destruct x
  | |- silent _ => assumption
  end.

Lemma silent_save : silent _save.
Proof. unfold _save. repeat silent_step. Qed.

Lemma silent_store_token b : silent (store_token b).
Proof. pose proof silent_save. unfold store_token. repeat silent_step. Qed.

(** However the exchange of a code ends, its request is the one thing
    sent, and no browser is opened. *)
Lemma getToken_sends code redirect w :
  requests (snd (_getToken code redirect w))
    = requests w ++ [_getToken_request (options w) code redirect]
  /\ opened (snd (_getToken code redirect w)) = opened w.
Proof.
  rewrite getToken_unfold. unfold bind, get_options.
  pose proof (qrequest_logs w (_getToken_request (options w) code redirect)) as Hlog.
  destruct (qrequest _ None w) as [[b|e|] w2]; simpl in Hlog; subst w2; [|done..].
  destruct (silent_store_token b
              (logged (_getToken_request (options w) code redirect) w)) as (-> & ->).
  done.
Qed.

(** No valid token is found in empty credentials, and the clock is not
    read. *)
Lemma validToken_empty w :
  state w = VObj ∅ -> _validToken w = (Ok false, w).
Proof.
  intros Hs. unfold _validToken, bind, get_state, lift. by rewrite Hs.
Qed.

(** A listener that cannot be bound: the promise of [_auth] is never
    settled, and nothing has happened. *)
Lemma auth_unbound w :
  listen w (port (options w)) = None -> _auth w = (Pending, w).
Proof.
  intros Hl. unfold _auth. unfold bind at 1. unfold get_options at 1.
  unfold bind at 1. unfold qserver at 1. by rewrite Hl.
Qed.

(** A listener that is bound: the browser is opened on the
    authorization URL, and the only request there can be is the exchange
    of a code. *)
Lemma auth_authorizes w p :
  listen w (port (options w)) = Some p -> authorizes w p (_auth w).
Proof.
  intros Hl. unfold authorizes, code_request.
  destruct (_auth w) as [o w'] eqn:Hrun. simpl fst. simpl snd. revert Hrun.
  unfold _auth. unfold bind at 1. unfold get_options at 1. rewrite Hl.
  unfold bind at 1. unfold qserver at 1. rewrite Hl. cbv zeta.
  destruct (settled _) as [r|];
    [|intros [= <- <-]; by split; [|split; [left|]]].
  unfold bind at 1. unfold lift at 1.
  destruct (get_prop (fst r) "error") as [er|e];
    [|intros [= <- <-]; by split; [|split; [left|]]].
  destruct (nullish er);
    [|intros [= <- <-]; by split; [|split; [left|]]].
  unfold bind at 1. unfold lift at 1.
  destruct (get_prop (fst r) "code") as [code|e];
    [|intros [= <- <-]; by split; [|split; [left|]]].
  intros Hrun.
  match type of Hrun with
  | _getToken code ?u ?w2 = _ =>
      destruct (getToken_sends code u w2) as (Hreq & Hop)
  end.
  rewrite Hrun in Hreq, Hop. simpl in Hreq, Hop.
  split; [exact Hop|]. split; [right|intros v _]; by exists code.
Qed.

(** A listener that is bound, a callback that brings a code, and a
    provider that grants the exchange. *)
Lemma auth_grants w p code b n :
  code_granted w p code b ->
  b !! "expires_in" = Some (VNum (Fin n)) ->
  Z.abs (now w + n * 1000) <= max_time ->
  writable w ->
  authorized w w p code b n (_auth w).
Proof.
  intros (Hl & (pre & r & post & er & Hb & Hpre & Hr & He & Hn & Hcode) & Hp)
         Hexp Hrange Hw.
  unfold code_request in Hp.
  assert (Hrun : exists w',
             _auth w = (Ok (field (granted w b n) "access_token"), w')
             /\ state w' = granted w b n
             /\ files w' = saved (granted w b n) w
             /\ opened w' = opened w ++ [_auth_url (options w) (callback_url p)]
             /\ requests w' = requests w
                  ++ [_getToken_request (options w) code (VStr (callback_url p))]).
  { unfold _auth. unfold bind at 1. unfold get_options at 1.
    unfold bind at 1.
    rewrite (qserver_resolves _ _ (fun cbu => open (_auth_url (options w) cbu))
               w p pre r post Hl Hb Hpre Hr).
    cbv zeta. unfold bind at 1. unfold lift at 1. simpl fst. rewrite He, Hn.
    simpl fst. unfold bind at 1. unfold lift at 1. rewrite Hcode, Hl.
    erewrite getToken_runs; [| exact Hp | exact Hexp | exact Hrange | exact Hw].
    eexists. split; [reflexivity|]. by simpl. }
  destruct Hrun as (w' & -> & ?). done.
Qed.

(** What [_getAuth] does once [_validToken] has answered [false],
    having read the clock or not: the full authorization, in each of
    its courses. *)
Lemma full_authorization w w1 :
  _validToken w = (Ok false, w1) ->
  w1 = w \/ w1 = tick w ->
  _getAuth w = _auth w1
  /\ (listen w (port (options w)) = None -> _getAuth w = (Pending, w1))
  /\ (forall p, listen w (port (options w)) = Some p ->
        authorizes w p (_getAuth w))
  /\ (forall p code b n,
        code_granted w p code b ->
        b !! "expires_in" = Some (VNum (Fin n)) ->
        Z.abs (now w1 + n * 1000) <= max_time ->
        writable w ->
        authorized w w1 p code b n (_getAuth w)).
Proof.
  intros Hv Hw1.
  assert (Hgo : _getAuth w = _auth w1).
  { unfold _getAuth, bind. by rewrite Hv. }
  rewrite Hgo. split; [done|].
  destruct Hw1 as [->| ->]; (split; [|split]).
  - apply auth_unbound.
  - apply auth_authorizes.
  - apply auth_grants.
  - intros Hl. by apply auth_unbound.
  - intros p Hl. by apply (auth_authorizes (tick w) p).
  - intros p code b n Hg Hexp Hrange Hw.
    by apply (auth_grants (tick w) p code b n).
Qed.

(** [C2] Credentials that lack the access token, the refresh token or
    the expiry, or whose expiry is not after the current time, are never
    taken as valid: [_validToken] answers [false], reading at most the
    clock, and [_getAuth] performs the full authorization.  With a
    listener that cannot be bound it stays pending: the stored token
    does not come back.  With a listener bound to a port the browser is
    opened on the authorization URL that redirects to that port, the one
    request that may be sent is the exchange of an authorization code
    (never a refresh), and no token comes back unless that exchange was
    sent.  When the browser brings a code and the provider grants the
    exchange, the token that comes back is the one of the response, and
    the credentials are the merged response, stamped and saved. *)
Theorem getAuth_without_valid_token w :
  nullish (state w) = false ->
  no_valid_token w ->
  exists w1,
    _validToken w = (Ok false, w1)
    /\ (w1 = w \/ w1 = tick w)
    /\ _getAuth w = _auth w1
    /\ (listen w (port (options w)) = None -> _getAuth w = (Pending, w1))
    /\ (forall p, listen w (port (options w)) = Some p ->
          authorizes w p (_getAuth w))
    /\ (forall p code b n,
          code_granted w p code b ->
          b !! "expires_in" = Some (VNum (Fin n)) ->
          Z.abs (now w1 + n * 1000) <= max_time ->
          writable w ->
          authorized w w1 p code b n (_getAuth w)).
Proof.
  intros Hst Hno.
  destruct (validToken_rejects w Hst Hno) as (w1 & Hv & Hw1).
  exists w1. split; [done|]. split; [done|].
  by apply full_authorization.
Qed.

(** The start-up completes, and leaves the state of [_loadConfig]. *)
Lemma new_Feedly_runs a o st p w :
  constructor a = Normal (o, st) ->
  config_file o = Some p ->
  exists w0, new_Feedly a w = (Ok tt, w0)
             /\ state w0 = state (snd (_loadConfig (set_state st (set_options o w)))).
Proof.
  intros Hc Hp. destruct (new_Feedly_state a o st p w Hc Hp) as (Hok & Hs).
  destruct (new_Feedly a w) as [r w0]. simpl in Hok, Hs. subst r. by exists w0.
Qed.

(** [C9] With a token file configured, the credentials after start-up
    are those of the file, whatever the constructor was given.  A file
    that holds an object makes that object the credentials, the number
    of milliseconds under [expires] turned into a Date; two
    constructions that agree on the path end with the same credentials,
    so tokens handed to the constructor leave no trace.  When the file
    is absent, cannot be read or does not hold JSON (as with the default
    path on a fresh machine) the credentials are empty, and the first
    [_getAuth] performs the full authorization: pending when the
    listener cannot be bound, else the browser is opened on the
    authorization URL and no token comes back without the exchange of a
    code; when that exchange is granted, its token is the one that comes
    back. *)
Theorem startup_replaces_constructor_tokens a a' o o' st st' p w :
  constructor a = Normal (o, st) ->
  constructor a' = Normal (o', st') ->
  config_file o = Some p ->
  config_file o' = Some p ->
  exists w0,
    new_Feedly a w = (Ok tt, w0)
    /\ state w0 = state (snd (new_Feedly a' w))
    /\ (forall m t,
          parses_to w p (Some (VObj m)) ->
          m !! "expires" = Some (VNum (Fin t)) ->
          Z.abs t <= max_time ->
          state w0 = VObj (<["expires" := VDate (Fin t)]> m))
    /\ (forall m,
          parses_to w p (Some (VObj m)) ->
          m !! "expires" = None ->
          state w0 = VObj m)
    /\ (unreadable w p \/ parses_to w p None ->
        state w0 = VObj ∅
        /\ _validToken w0 = (Ok false, w0)
        /\ (listen w0 (port (options w0)) = None -> _getAuth w0 = (Pending, w0))
        /\ (forall q, listen w0 (port (options w0)) = Some q ->
              authorizes w0 q (_getAuth w0))
        /\ (forall q code b n,
              code_granted w0 q code b ->
              b !! "expires_in" = Some (VNum (Fin n)) ->
              Z.abs (now w0 + n * 1000) <= max_time ->
              writable w0 ->
              authorized w0 w0 q code b n (_getAuth w0))).
Proof.
  intros Hc Hc' Hp Hp'.
  destruct (new_Feedly_runs a o st p w Hc Hp) as (w0 & Hrun & Hs).
  destruct (new_Feedly_state a' o' st' p w Hc' Hp') as (_ & Hs').
  exists w0. split; [done|]. rewrite Hs. split; [|split; [|split]].
  - rewrite Hs'.
    destruct (loadConfig_from_files (set_state st (set_options o w))
                (set_state st' (set_options o' w)) p) as (s & -> & ->); done.
  - intros m t Hm Ht Hrange.
    rewrite (loadConfig_reads (set_state st (set_options o w)) p m Hp Hm), Ht.
    simpl. by rewrite (proj2 (Z.leb_le _ _) Hrange).
  - intros m Hm Hnone.
    by rewrite (loadConfig_reads (set_state st (set_options o w)) p m Hp Hm), Hnone.
  - intros Hbad.
    assert (Hempty : state w0 = VObj ∅).
    { rewrite Hs.
      by rewrite (loadConfig_resets (set_state st (set_options o w)) p Hp Hbad). }
    rewrite <- Hs. split; [done|].
    pose proof (validToken_empty w0 Hempty) as Hv.
    split; [done|].
    destruct (full_authorization w0 w0 Hv (or_introl eq_refl)) as (_ & ? & ? & ?).
    done.
Qed.

End Observable.

Section Observable_example.
#[local] Existing Instance Demo.platform.

(** Credentials that expired at 500, looked at when the clock shows
    1 000 000; the browser comes back with [/?code=abc123] and the
    provider grants [{access_token: "new", expires_in: 3600}].  The
    stored token is [A]. *)
Lemma getAuth_without_valid_token_witness :
  let w := Demo.a_world 1000000 (Demo.credentials 500)
             (Reply 200 (VObj Samples.fresh))
             [Demo.get "/favicon.ico"; Demo.get "/?code=abc123"] in
  fst (_validToken w) = Ok false
  /\ fst (_getAuth w) = Ok (VStr "new")
  /\ opened (snd (_getAuth w))
     = [_auth_url Demo.some_options "http://localhost:8080"]
  /\ requests (snd (_getAuth w))
     = [_getToken_request Demo.some_options (VStr "abc123")
          (VStr "http://localhost:8080")].
Proof.
  intros w.
  destruct (getAuth_without_valid_token w) as (w1 & Hv & Hw1 & _ & _ & _ & Hgo).
  - reflexivity.
  - right; right; right. exists 500. split; [reflexivity|].
    unfold now. simpl. lia.
  - destruct (Hgo 8080 (VStr "abc123") Samples.fresh 3600)
      as (Hval & _ & _ & Hop & Hreq).
    + split; [reflexivity|]. split; [|reflexivity].
      exists [Demo.get "/favicon.ico"], (Demo.get "/?code=abc123"), [], VUndef.
      split; [reflexivity|]. split.
      { constructor; [|constructor]. vm_compute. discriminate. }
      repeat (split; [reflexivity|]). reflexivity.
    + reflexivity.
    + destruct Hw1 as [->| ->]; vm_compute; discriminate.
    + intros p _. apply not_elem_of_empty.
    + split; [by rewrite Hv|]. split; [|split; [exact Hop | exact Hreq]].
      rewrite Hval. destruct Hw1 as [->| ->]; reflexivity.
Defined.

(** Tokens given to the constructor and the default token file: with
    no such file the credentials are empty and the first [_getAuth]
    opens the browser; with the file, they are those of the file. *)
Lemma startup_replaces_constructor_tokens_witness :
  let p := "/home/u/.feedly" in
  let w := Demo.a_world 1000000 VUndef (NetError "offline") [] in
  let wf := Demo.with_files {[p := Demo.tokens_text]} ∅ w in
  state (snd (new_Feedly (Demo.args true) w)) = VObj ∅
  /\ opened (snd (_getAuth (snd (new_Feedly (Demo.args true) w))))
     = ["http://cloud.feedly.com/v3/auth/auth?response_type&client_id&redirect_uri&scope"]
  /\ state (snd (new_Feedly (Demo.args true) wf))
     = VObj (<["expires" := VDate (Fin 5000000)]> Demo.tokens).
Proof.
  intros p w wf. split; [|split].
  - edestruct (startup_replaces_constructor_tokens (Demo.args true) (Demo.args false))
      with (w := w) as (w0 & Hrun & _ & _ & _ & Hbad).
    + reflexivity.
    + reflexivity.
    + reflexivity.
    + reflexivity.
    + rewrite Hrun. apply Hbad. left. right. reflexivity.
  - edestruct (startup_replaces_constructor_tokens (Demo.args true) (Demo.args false))
      with (w := w) as (w0 & Hrun & _ & _ & _ & Hbad).
    + reflexivity.
    + reflexivity.
    + reflexivity.
    + reflexivity.
    + destruct Hbad as (_ & _ & _ & Hopen & _); [left; right; reflexivity|].
      assert (Hw0 : w0 = snd (new_Feedly (Demo.args true) w)) by (by rewrite Hrun).
      subst w0. destruct (Hopen 8080) as (Hop & _); [reflexivity|].
      rewrite Hop. vm_compute. reflexivity.
  - edestruct (startup_replaces_constructor_tokens (Demo.args true) (Demo.args false))
      with (w := wf) as (w0 & Hrun & _ & Hgood & _).
    + reflexivity.
    + reflexivity.
    + reflexivity.
    + reflexivity.
    + rewrite Hrun. apply (Hgood Demo.tokens 5000000).
      * exists Demo.tokens_text. split; [simpl; set_solver | split; reflexivity].
      * reflexivity.
      * vm_compute. discriminate.
Defined.

End Observable_example.

(** ** Files: the page, the token file, logging out *)

Section Files.
Context `{Platform}.

(** [X14] The load of the page shown in the browser never rejects and
    touches neither the credentials nor the files.  Without an
    [html_file] the text stays and nothing is logged; a file that can be
    read replaces the text; a file that is missing or cannot be read
    leaves the text as it was and logs one warning. *)
Theorem loadHTML_falls_back w :
  exists w',
    _loadHTML w = (Ok tt, w')
    /\ state w' = state w
    /\ files w' = files w
    /\ match html_file (options w) with
       | None =>
           html_text (options w') = html_text (options w)
           /\ console w' = console w
       | Some p =>
           (forall d, p ∉ locked w -> files w !! p = Some d ->
                      html_text (options w') = d /\ console w' = console w)
           /\ (unreadable w p ->
               html_text (options w') = html_text (options w)
               /\ exists er, console w' = console w ++ [("WARNING:", er)])
       end.
Proof.
  unfold _loadHTML, try_catch, bind, get_options, readFile, console_error, unreadable.
  destruct (html_file (options w)) as [p|]; [|by eexists].
  destruct (decide (p ∈ locked w)) as [Hl|Hl].
  - eexists. split; [reflexivity|]. simpl.
    split; [done|]. split; [done|]. split; [done|].
    intros _. split; [done|]. by eexists.
  - destruct (files w !! p) as [d|] eqn:Hf.
    + eexists. split; [reflexivity|]. simpl.
      split; [done|]. split; [done|]. split.
      * intros d' _ Hd. by injection Hd as <-.
      * by intros [?|?].
    + eexists. split; [reflexivity|]. simpl.
      split; [done|]. split; [done|]. split; [done|].
      intros _. split; [done|]. by eexists.
Qed.

(** [X10] Saving and loading back.  The credentials are an object
    whose [expires] is a Date, and the platform's JSON writes that Date
    as a string that [Date.parse] reads back as the same time, the other
    properties coming back as they are.  Then [_save] followed by
    [_loadConfig] ends with the credentials it started from, and the
    token file holds their JSON text. *)
Theorem save_then_load_restores w p m t iso :
  config_file (options w) = Some p ->
  p ∉ locked w ->
  state w = VObj m ->
  m !! "expires" = Some (VDate t) ->
  JSON_parse (JSON_stringify (VObj m)) = Some (VObj (<["expires" := VStr iso]> m)) ->
  Date_parse iso = t ->
  exists w',
    (do! _save in _loadConfig) w = (Ok tt, w')
    /\ state w' = state w
    /\ files w' = <[p := JSON_stringify (state w)]> (files w).
Proof.
  intros Hp Hl Hm Hex Hjson Hdate.
  assert (Hw : writable w).
  { intros p' Hp'. rewrite Hp in Hp'. by injection Hp' as <-. }
  unfold bind. rewrite (save_writes w Hw). unfold saved. rewrite Hp, Hm.
  rewrite (loadConfig_reads _ p (<["expires" := VStr iso]> m)).
  - rewrite lookup_insert_eq. simpl. rewrite Hdate.
    eexists. split; [reflexivity|]. simpl. split; [|done].
    by rewrite insert_insert_eq, (insert_id m "expires" (VDate t) Hex).
  - done.
  - exists (JSON_stringify (VObj m)). simpl. by rewrite lookup_insert_eq.
Qed.

(** [X16] [logout] on credentials that are an object, with a token
    file that can be written, whatever the provider answers to the
    revocation: the call is fulfilled, the six properties it deletes are
    gone, every other property keeps its value, what is left is saved,
    and one request, the revocation, was sent. *)
Theorem logout_clears_whatever_the_answer w m :
  state w = VObj m ->
  writable w ->
  exists w',
    logout None w = (Ok VUndef, w')
    /\ (forall k, k ∈ logout_fields -> field (state w') k = VUndef)
    /\ (forall k, k ∉ logout_fields -> field (state w') k = field (state w) k)
    /\ files w' = saved (state w') w
    /\ requests w'
       = requests w ++ [_revoke_request (options w) (field (state w) "refresh_token")].
Proof.
  intros Hm Hw.
  destruct (logout_clears w m Hm Hw) as (w' & Hrun & Hs & Hf & Hr).
  exists w'. split; [done|]. rewrite Hs, Hm. simpl.
  split; [|split; [|split; [exact Hf | by rewrite Hr, Hm]]].
  - intros k Hk. rewrite !lookup_delete.
    unfold logout_fields in Hk. rewrite !elem_of_cons in Hk.
    rewrite elem_of_nil in Hk.
    repeat case_decide; try done. intuition congruence.
  - intros k Hk. rewrite !lookup_delete.
    unfold logout_fields in Hk. rewrite !elem_of_cons in Hk.
    rewrite elem_of_nil in Hk.
    repeat case_decide; try done; subst; exfalso; apply Hk; tauto.
Qed.

End Files.

Section Files_example.
#[local] Existing Instance Demo.platform.

(** The credentials of the user [u1], logged out while the provider
    cannot be reached. *)
Lemma logout_clears_whatever_the_answer_witness :
  let w := Demo.a_world 1000000 (Demo.credentials 9001000) (NetError "offline") [] in
  exists w', logout None w = (Ok VUndef, w')
             /\ field (state w') "access_token" = VUndef
             /\ field (state w') "id" = VStr "u1".
Proof.
  intros w.
  destruct (logout_clears_whatever_the_answer w (Samples.credentials_map 9001000))
    as (w' & Hrun & Hgone & Hkept & _).
  - reflexivity.
  - intros p _. apply not_elem_of_empty.
  - exists w'. split; [exact Hrun|]. split.
    + apply Hgone. unfold logout_fields. apply elem_of_cons. by left.
    + rewrite Hkept; [reflexivity|]. unfold logout_fields.
      rewrite !elem_of_cons, elem_of_nil. intuition discriminate.
Defined.

End Files_example.

Section Round_trip_example.
#[local] Existing Instance Samples.json_platform.

(** Credentials that expire at 9 001 000, saved and loaded back. *)
Lemma save_then_load_restores_witness :
  let w := Demo.a_world 1000000 (Demo.credentials 9001000) (NetError "offline") [] in
  exists w', (do! _save in _loadConfig) w = (Ok tt, w') /\ state w' = state w.
Proof.
  intros w.
  destruct (save_then_load_restores w "/home/u/.feedly"
              (Samples.credentials_map 9001000) (Fin 9001000) "iso")
    as (w' & Hrun & Hs & _).
  - reflexivity.
  - apply not_elem_of_empty.
  - reflexivity.
  - reflexivity.
  - reflexivity.
  - reflexivity.
  - exists w'. split; [exact Hrun | exact Hs].
Defined.

End Round_trip_example.

(** ** What the operations keep *)

Section Frames.
Context `{Platform}.

Lemma quiet_ret {A} (a : A) : quiet (ret a).
Proof. by intros w Hw. Qed.

Lemma quiet_throw {A} e : quiet (@throw A e).
Proof. by intros w Hw. Qed.

Lemma quiet_lift {A} (c : completion A) : quiet (lift c).
Proof. intros w Hw. unfold lift. by destruct c. Qed.

Lemma quiet_get_state : quiet get_state.
Proof. by intros w Hw. Qed.

Lemma quiet_put_state s : quiet (put_state s).
Proof. by intros w Hw. Qed.

Lemma quiet_get_options : quiet get_options.
Proof. by intros w Hw. Qed.

Lemma quiet_Date_now : quiet Date_now.
Proof. by intros w Hw. Qed.

Lemma quiet_request_ o : quiet (request_ o).
Proof. by intros w Hw. Qed.

Lemma quiet_open u : quiet (open u).
Proof. by intros w Hw. Qed.

Lemma quiet_bind {A B} (m : M A) (k : A -> M B) :
  quiet m -> (forall a, quiet (k a)) -> quiet (bind m k).
Proof.
  intros Hm Hk w Hw. unfold bind.
  destruct (Hm w Hw) as (Hc & Hf).
  destruct (m w) as [[a|e|] w1]; simpl in *; [|done..].
  destruct (Hk a w1 Hc) as (Hc' & Hf'). by rewrite Hf', Hf.
Qed.

Lemma quiet_then {A B} (p : M A) (f : A -> M B) (g : jsval -> M B) :
  quiet p -> (forall a, quiet (f a)) -> (forall e, quiet (g e)) ->
  quiet (then_ p f g).
Proof.
  intros Hp Hf Hg w Hw. unfold then_.
  destruct (Hp w Hw) as (Hc & Hfs).
  destruct (p w) as [[a|e|] w1]; simpl in *; [| |done].
  - destruct (Hf a w1 Hc) as (Hc' & Hf'). by rewrite Hf', Hfs.
  - destruct (Hg e w1 Hc) as (Hc' & Hf'). by rewrite Hf', Hfs.
Qed.

Lemma quiet_unawaited {A} (p : M A) : quiet p -> quiet (unawaited p).
Proof. intros Hp w Hw. exact (Hp w Hw). Qed.

(** One step through a computation made of the pieces above. *)
Ltac quiet_step :=
  match goal with
  | |- quiet (bind _ _) => apply quiet_bind; [|intros ?]
  | |- quiet (then_ _ _ _) => apply quiet_then; [|intros ?|intros ?]
  | |- quiet (unawaited _) => apply quiet_unawaited
  | |- quiet (ret _) => apply quiet_ret
  | |- quiet (throw _) => apply quiet_throw
  | |- quiet (lift _) => apply quiet_lift
  | |- quiet get_state => apply quiet_get_state
  | |- quiet (put_state _) => apply quiet_put_state
  | |- quiet get_options => apply quiet_get_options
  | |- quiet Date_now => apply quiet_Date_now
  | |- quiet (request_ _) => apply quiet_request_
  | |- quiet (open _) => apply quiet_open
  | |- quiet (if ?b then _ else _) => destruct b
  | |- quiet (match ?x with _ => _ end) => destruct x
  | |- quiet _ => assumption
  end.

Lemma quiet_qrequest o cb : quiet (qrequest o cb).
Proof. unfold qrequest. repeat quiet_step. Qed.

(** Without a token file [_save] does nothing. *)
Lemma quiet_save : quiet _save.
Proof. intros w Hw. unfold _save, bind, get_options. simpl. by rewrite Hw. Qed.

Lemma quiet_store_token b : quiet (store_token b).
Proof. pose proof quiet_save. unfold store_token. repeat quiet_step. Qed.

Lemma quiet_getToken code redirect : quiet (_getToken code redirect).
Proof.
  rewrite getToken_unfold. pose proof quiet_store_token. pose proof quiet_qrequest.
  repeat quiet_step; auto.
Qed.

Lemma quiet_refresh : quiet _refresh.
Proof.
  rewrite refresh_unfold. pose proof quiet_store_token. pose proof quiet_qrequest.
  repeat quiet_step; auto.
Qed.

Lemma quiet_validToken : quiet _validToken.
Proof. unfold _validToken. repeat quiet_step. Qed.

Lemma quiet_qserver port text opener :
  (forall u, quiet (opener u)) -> quiet (qserver port text opener).
Proof.
  intros Ho w Hw. unfold qserver.
  destruct (listen w port) as [p|]; [|done].
  destruct (Ho (callback_url p) w Hw) as (Hc & Hf). simpl.
  by destruct (settled _).
Qed.

Lemma quiet_auth : quiet _auth.
Proof.
  pose proof quiet_getToken.
  unfold _auth. apply quiet_bind; [apply quiet_get_options|]. intros o w Hw.
  apply (quiet_bind
           (qserver (port o) (html_text o) (fun cbu => open (_auth_url o cbu)))); [| |done].
  - apply quiet_qserver. intros u. apply quiet_open.
  - intros r. repeat quiet_step; auto.
Qed.

Lemma quiet_getAuth : quiet _getAuth.
Proof.
  pose proof quiet_auth. pose proof quiet_refresh. pose proof quiet_validToken.
  unfold _getAuth. repeat quiet_step; auto.
Qed.

Lemma quiet_nodify cb m : quiet m -> quiet (_nodify cb m).
Proof. intros Hm. unfold _nodify. repeat quiet_step. Qed.

Lemma quiet_logout cb : quiet (logout cb).
Proof.
  pose proof quiet_save. pose proof quiet_qrequest.
  unfold logout. apply quiet_nodify. unfold delete_state.
  repeat quiet_step; auto.
Qed.

Lemma quiet_refresh_by_hand cb : quiet (refresh cb).
Proof.
  pose proof quiet_auth. pose proof quiet_refresh. pose proof quiet_validToken.
  unfold refresh. apply quiet_nodify. repeat quiet_step; auto.
Qed.

Lemma quiet_request cb path method body : quiet (_request cb path method body).
Proof.
  pose proof quiet_getAuth. pose proof quiet_qrequest.
  unfold _request. repeat quiet_step; auto.
Qed.

(** [X11] With persistence switched off ([config_file] is [null]) no
    operation writes a file, however it ends: not [_getAuth] (with the
    full authorization or the refresh it may run), not the manual
    [refresh], not [logout], not an API request. *)
Theorem no_token_file_no_write w :
  config_file (options w) = None ->
  files (snd (_getAuth w)) = files w
  /\ (forall cb, files (snd (refresh cb w)) = files w)
  /\ (forall cb, files (snd (logout cb w)) = files w)
  /\ (forall cb path method body,
        files (snd (_request cb path method body w)) = files w).
Proof.
  intros Hw. split; [|split; [|split]].
  - apply (quiet_getAuth w Hw).
  - intros cb. apply (quiet_refresh_by_hand cb w Hw).
  - intros cb. apply (quiet_logout cb w Hw).
  - intros cb path method body. apply (quiet_request cb path method body w Hw).
Qed.

End Frames.

Section Frames_example.
#[local] Existing Instance Demo.platform.

(** A refresh that succeeds, with no token file configured. *)
Lemma no_token_file_no_write_witness :
  let w := set_options Samples.no_file_options
             (Demo.a_world 1000000 (Demo.credentials 9001000)
                (Reply 200 (VObj Samples.fresh)) []) in
  fst (_getAuth w) = Ok (VStr "new") /\ files (snd (_getAuth w)) = ∅.
Proof.
  intros w. split; [reflexivity|].
  destruct (no_token_file_no_write w eq_refl) as (Hf & _).
  rewrite Hf. reflexivity.
Defined.

End Frames_example.

Section Readable.
Context `{Platform}.

Lemma keeps_ret {A} (a : A) : keeps_object (ret a).
Proof. by intros w Hw. Qed.

Lemma keeps_throw {A} e : keeps_object (@throw A e).
Proof. by intros w Hw. Qed.

Lemma keeps_lift {A} (c : completion A) : keeps_object (lift c).
Proof. intros w Hw. unfold lift. by destruct c. Qed.

Lemma keeps_get_state : keeps_object get_state.
Proof. by intros w Hw. Qed.

Lemma keeps_put_state s : nullish s = false -> keeps_object (put_state s).
Proof. by intros Hs w Hw. Qed.

Lemma keeps_get_options : keeps_object get_options.
Proof. by intros w Hw. Qed.

Lemma keeps_Date_now : keeps_object Date_now.
Proof. by intros w Hw. Qed.

Lemma keeps_request_ o : keeps_object (request_ o).
Proof. by intros w Hw. Qed.

Lemma keeps_open u : keeps_object (open u).
Proof. by intros w Hw. Qed.

Lemma keeps_bind {A B} (m : M A) (k : A -> M B) :
  keeps_object m -> (forall a, keeps_object (k a)) -> keeps_object (bind m k).
Proof.
  intros Hm Hk w Hw. unfold bind. specialize (Hm w Hw).
  destruct (m w) as [[a|e|] w1]; simpl in *; [|done..].
  by apply Hk.
Qed.

Lemma keeps_then {A B} (p : M A) (f : A -> M B) (g : jsval -> M B) :
  keeps_object p -> (forall a, keeps_object (f a)) ->
  (forall e, keeps_object (g e)) -> keeps_object (then_ p f g).
Proof.
  intros Hp Hf Hg w Hw. unfold then_. specialize (Hp w Hw).
  destruct (p w) as [[a|e|] w1]; simpl in *; [by apply Hf|by apply Hg|done].
Qed.

Lemma keeps_unawaited {A} (p : M A) : keeps_object p -> keeps_object (unawaited p).
Proof. intros Hp w Hw. exact (Hp w Hw). Qed.

Ltac keeps_step :=
  match goal with
  | |- keeps_object (bind _ _) => apply keeps_bind; [|intros ?]
  | |- keeps_object (then_ _ _ _) => apply keeps_then; [|intros ?|intros ?]
  | |- keeps_object (unawaited _) => apply keeps_unawaited
  | |- keeps_object (ret _) => apply keeps_ret
  | |- keeps_object (throw _) => apply keeps_throw
  | |- keeps_object (lift _) => apply keeps_lift
  | |- keeps_object get_state => apply keeps_get_state
  | |- keeps_object (put_state (Object_assign _)) =>
      apply keeps_put_state; reflexivity
  | |- keeps_object get_options => apply keeps_get_options
  | |- keeps_object Date_now => apply keeps_Date_now
  | |- keeps_object (request_ _) => apply keeps_request_
  | |- keeps_object (open _) => apply keeps_open
  | |- keeps_object (if ?b then _ else _) => destruct b
  | |- keeps_object (match ?x with _ => _ end) => destruct x
  | |- keeps_object _ => assumption
  end.

Lemma keeps_qrequest o cb : keeps_object (qrequest o cb).
Proof. unfold qrequest. repeat keeps_step. Qed.

Lemma save_keeps_state w : state (snd (_save w)) = state w.
Proof.
  unfold _save, bind, get_options, get_state, writeFile, ret. simpl.
  destruct (config_file (options w)) as [p|]; [|done].
  by destruct (decide (p ∈ locked w)).
Qed.

(** Whatever the response, the credentials that [store_token] leaves
    are an object. *)
Lemma keeps_store_token b : keeps_object (store_token b).
Proof.
  intros w _. unfold store_token, bind, get_state, put_state, Date_now, lift.
  unfold Object_assign. simpl.
  destruct (get_prop b "expires_in") as [ein|]; [|done].
  destruct (ToNumber ein) as [n|]; [|done]. simpl.
  match goal with |- context [_save ?W] =>
    pose proof (save_keeps_state W) as Hs; destruct (_save W) as [[[]|e|] W']
  end; simpl in *; [|by rewrite Hs..].
  rewrite Hs. simpl. by rewrite Hs.
Qed.

Lemma keeps_delete_state k : keeps_object (delete_state k).
Proof.
  intros w Hw. unfold delete_state, bind, get_state, put_state, lift.
  by destruct (state w).
Qed.

Lemma keeps_getToken code redirect : keeps_object (_getToken code redirect).
Proof.
  rewrite getToken_unfold. pose proof keeps_store_token. pose proof keeps_qrequest.
  repeat keeps_step; auto.
Qed.

Lemma keeps_refresh : keeps_object _refresh.
Proof.
  rewrite refresh_unfold. pose proof keeps_store_token. pose proof keeps_qrequest.
  repeat keeps_step; auto.
Qed.

Lemma keeps_validToken : keeps_object _validToken.
Proof. unfold _validToken. repeat keeps_step. Qed.

Lemma keeps_qserver port text opener :
  (forall u, keeps_object (opener u)) -> keeps_object (qserver port text opener).
Proof.
  intros Ho w Hw. unfold qserver.
  destruct (listen w port) as [p|]; [|done].
  specialize (Ho (callback_url p) w Hw). simpl.
  by destruct (settled _).
Qed.

Lemma keeps_auth : keeps_object _auth.
Proof.
  pose proof keeps_getToken.
  unfold _auth. apply keeps_bind; [apply keeps_get_options|]. intros o w Hw.
  apply (keeps_bind
           (qserver (port o) (html_text o) (fun cbu => open (_auth_url o cbu)))); [| |done].
  - apply keeps_qserver. intros u. apply keeps_open.
  - intros r. repeat keeps_step; auto.
Qed.

Lemma keeps_getAuth : keeps_object _getAuth.
Proof.
  pose proof keeps_auth. pose proof keeps_refresh. pose proof keeps_validToken.
  unfold _getAuth. repeat keeps_step; auto.
Qed.

Lemma keeps_nodify cb m : keeps_object m -> keeps_object (_nodify cb m).
Proof. intros Hm. unfold _nodify. repeat keeps_step. Qed.

Lemma keeps_logout cb : keeps_object (logout cb).
Proof.
  pose proof keeps_delete_state. pose proof (fun w => save_keeps_state w) as Hsave.
  pose proof keeps_qrequest.
  assert (Hs : keeps_object _save) by (intros w Hw; by rewrite save_keeps_state).
  unfold logout. apply keeps_nodify. repeat keeps_step; auto.
Qed.

Lemma keeps_refresh_by_hand cb : keeps_object (refresh cb).
Proof.
  pose proof keeps_auth. pose proof keeps_refresh. pose proof keeps_validToken.
  unfold refresh. apply keeps_nodify. repeat keeps_step; auto.
Qed.

Lemma keeps_request cb path method body :
  keeps_object (_request cb path method body).
Proof.
  pose proof keeps_getAuth. pose proof keeps_qrequest.
  unfold _request. repeat keeps_step; auto.
Qed.

(** [X13] The credentials stay a value whose properties can be read:
    when [this.state] is neither [null] nor [undefined] before an
    operation, it is neither after it, however the operation ends; so
    it is for [_getAuth], the manual [refresh], [logout] and every API
    request. *)
Theorem credentials_stay_readable w :
  nullish (state w) = false ->
  nullish (state (snd (_getAuth w))) = false
  /\ (forall cb, nullish (state (snd (refresh cb w))) = false)
  /\ (forall cb, nullish (state (snd (logout cb w))) = false)
  /\ (forall cb path method body,
        nullish (state (snd (_request cb path method body w))) = false).
Proof.
  intros Hw. split; [|split; [|split]].
  - apply (keeps_getAuth w Hw).
  - intros cb. apply (keeps_refresh_by_hand cb w Hw).
  - intros cb. apply (keeps_logout cb w Hw).
  - intros cb path method body. apply (keeps_request cb path method body w Hw).
Qed.

End Readable.

Section Readable_example.
#[local] Existing Instance Demo.platform.

(** A token file that held the text of a number: the credentials are
    the number 5, and after a full authorization that is denied they are
    still readable. *)
Lemma credentials_stay_readable_witness :
  let w := Demo.a_world 1000000 (VNum (Fin 5)) (NetError "offline")
             [Demo.get "/?error=access_denied"] in
  nullish (state (snd (_getAuth w))) = false.
Proof.
  intros w. destruct (credentials_stay_readable w eq_refl) as (Hs & _).
  exact Hs.
Defined.

End Readable_example.

(** ** The arguments of the constructor *)

Section Constructor.
Context `{Platform}.

(** [X18] The constructor hands both paths to [untildify] before
    anything else, and [untildify] takes strings only.  A token file or
    an HTML file given as [null] makes the constructor throw the error
    of [untildify], client id and secret given or not: persistence
    cannot be switched off that way.  With string paths (given, or the
    defaults) a missing client id or secret throws the error that asks
    for them.  A constructor that returns has string paths, and its
    credentials are the three tokens when [refresh_token],
    [access_token] and [access_token_expires] are all truthy (the
    expiry left out defaults to 0), and empty otherwise: a partial set
    of tokens is dropped. *)
Theorem partial_tokens_are_ignored a e :
  untildify None = Abrupt e ->
  (forall s, exists s', untildify (Some s) = Normal (Some s')) ->
  (o_config_file a = Some None \/ o_html_file a = Some None ->
   constructor a = Abrupt e)
  /\ (o_config_file a <> Some None -> o_html_file a <> Some None ->
      o_client_id a = None \/ o_client_secret a = None ->
      constructor a = Abrupt (Error "client_id and client_secret required"))
  /\ (forall o st,
        constructor a = Normal (o, st) ->
        (exists p, config_file o = Some p)
        /\ (exists h, html_file o = Some h)
        /\ st = if truthy (default VUndef (o_refresh_token a))
                   && truthy (default VUndef (o_access_token a))
                   && truthy (default (VNum (Fin 0)) (o_access_token_expires a))
                then VObj (<["refresh_token" := default VUndef (o_refresh_token a)]>
                           (<["access_token" := default VUndef (o_access_token a)]>
                            (<["expires" := default (VNum (Fin 0))
                                              (o_access_token_expires a)]> ∅)))
                else VObj ∅).
Proof.
  intros Hnull Hstr. unfold constructor, cbind.
  destruct (o_config_file a) as [[p|]|]; simpl default;
    [destruct (Hstr p) as (p' & ->)
    |rewrite Hnull; by repeat split
    |destruct (Hstr "~/.feedly") as (p' & ->)];
    (destruct (o_html_file a) as [[h|]|]; simpl default;
     [destruct (Hstr h) as (h' & ->)
     |rewrite Hnull; by repeat split
     |destruct (Hstr default_html_file) as (h' & ->)]).
  all: split; [by intros [?|?]|].
  all: split;
    [intros _ _ Hmiss;
     destruct (o_client_id a); [|done];
     destruct (o_client_secret a); [|done];
     by destruct Hmiss
    |intros o st;
     destruct (o_client_id a); [|done];
     destruct (o_client_secret a); [|done];
     simpl;
     destruct (truthy (default VUndef (o_refresh_token a))
               && truthy (default VUndef (o_access_token a))
               && truthy (default (VNum (Fin 0)) (o_access_token_expires a)));
     intros [= <- <-]; simpl; by eauto].
Qed.

End Constructor.

Section Constructor_example.
#[local] Existing Instance Demo.platform.

(** The sample [untildify] takes every string to a string. *)
Lemma expand_tilde_string s :
  exists s', Demo.expand_tilde (Some s) = Normal (Some s').
Proof.
  unfold Demo.expand_tilde.
  destruct s as [|c s]; [by eauto|].
  destruct c as [[] [] [] [] [] [] [] []]; try by eauto.
  destruct s as [|d s]; [by eauto|].
  destruct d as [[] [] [] [] [] [] [] []]; by eauto.
Qed.

(** Both tokens given and the expiry left out; then the same with the
    token file given as [null]. *)
Lemma partial_tokens_are_ignored_witness :
  let a := {| o_port := None; o_base := None; o_config_file := None;
              o_refresh_token := Some (VStr "R");
              o_access_token := Some (VStr "A");
              o_access_token_expires := None;
              o_html_file := None; o_html_text := None; o_slop := None;
              o_client_id := Some "sandbox"; o_client_secret := Some "secret" |} in
  let a' := {| o_port := None; o_base := None; o_config_file := Some None;
               o_refresh_token := Some (VStr "R");
               o_access_token := Some (VStr "A");
               o_access_token_expires := None;
               o_html_file := None; o_html_text := None; o_slop := None;
               o_client_id := Some "sandbox"; o_client_secret := Some "secret" |} in
  (exists o, constructor a = Normal (o, VObj ∅)
             /\ config_file o = Some "/home/u/.feedly")
  /\ constructor a' = Abrupt (TypeError "Expected a string, got object").
Proof.
  intros a a'. split.
  - destruct (partial_tokens_are_ignored a
                (TypeError "Expected a string, got object")) as (_ & _ & Hok).
    + reflexivity.
    + exact expand_tilde_string.
    + destruct (constructor a) as [[o st]|e'] eqn:Hca; [|discriminate Hca].
      destruct (Hok o st eq_refl) as (_ & _ & Hst).
      exists o. split; [by rewrite Hst|].
      by injection Hca as <- _.
  - destruct (partial_tokens_are_ignored a'
                (TypeError "Expected a string, got object")) as (Hnull & _).
    + reflexivity.
    + exact expand_tilde_string.
    + apply Hnull. by left.
Defined.

End Constructor_example.
